(** * vimspector: python3/vimspector/utils.py

    A shallow embedding of the helper module of vimspector and the
    properties of its scoped helpers, prompts and lookups.

    The host editor is a record of the pieces of state the module touches
    through the [vim] Python module; Python code is a state-and-exception
    computation over that record; a [contextlib.contextmanager] generator
    is split at its single [yield]. *)

From Stdlib Require Import ZArith Lia Ascii String DecimalString DecimalZ.
From stdpp Require Import base gmap strings list functions.

Local Open Scope string_scope.
Local Open Scope Z_scope.

(** ** Python values and exceptions *)

(** The values the module stores in editor options. *)
Inductive pyvalue :=
| VBool (b : bool)
| VInt (n : Z)
| VStr (s : string).

(** The exceptions that can travel through the module. [OtherError] stands
    for any exception class the module does not name. *)
Inductive exn :=
| KeyError (key : string)
| ValueError (msg : string)
| KeyboardInterrupt
| VimError (msg : string)
| OtherError (tag : string).

Definition is_KeyboardInterrupt (e : exn) : bool :=
  match e with KeyboardInterrupt => true | _ => false end.

(** ** The host editor *)

(** [vim.Buffer]: its option mapping, its name and its lines. *)
Record buffer := Buffer {
  buf_options : gmap string pyvalue;
  buf_name : string;
  buf_lines : list string
}.

(** [vim.Window]: the buffer it shows (a buffer handle) and its cursor,
    a (line, column) pair. *)
Record window := Window {
  win_buffer : nat;
  win_cursor : Z * Z
}.

(** What the user does at a blocking prompt ([input()], [inputlist()]):
    the host function returns, and [vim.eval] hands back its result as a
    string, or the user interrupts with CTRL-C, or the host reports an
    error. *)
Inductive reply :=
| Answer (s : string)
| Interrupt
| HostError (msg : string).

(** The editor state reachable through the [vim] module.  Buffer and window
    objects are referenced by handle; [vim_commands] and [vim_evals] record
    the strings passed to [vim.command] and [vim.eval], oldest first;
    [vim_input_saves] counts the typeahead saved by [inputsave()] and not
    yet given back by [inputrestore()]; [vim_replies] is what the user will
    do at the coming prompts. *)
Record vim_state := VimState {
  vim_options : gmap string pyvalue;
  vim_buffers : nat -> buffer;
  vim_windows : nat -> window;
  vim_current_window : nat;
  vim_commands : list string;
  vim_evals : list string;
  vim_input_saves : nat;
  vim_replies : list reply
}.

Definition set_vim_options (o : gmap string pyvalue) (st : vim_state) : vim_state :=
  VimState o (vim_buffers st) (vim_windows st) (vim_current_window st)
           (vim_commands st) (vim_evals st) (vim_input_saves st) (vim_replies st).

Definition set_vim_buffers (b : nat -> buffer) (st : vim_state) : vim_state :=
  VimState (vim_options st) b (vim_windows st) (vim_current_window st)
           (vim_commands st) (vim_evals st) (vim_input_saves st) (vim_replies st).

Definition set_vim_windows (w : nat -> window) (st : vim_state) : vim_state :=
  VimState (vim_options st) (vim_buffers st) w (vim_current_window st)
           (vim_commands st) (vim_evals st) (vim_input_saves st) (vim_replies st).

Definition set_vim_current_window (w : nat) (st : vim_state) : vim_state :=
  VimState (vim_options st) (vim_buffers st) (vim_windows st) w
           (vim_commands st) (vim_evals st) (vim_input_saves st) (vim_replies st).

Definition set_vim_commands (c : list string) (st : vim_state) : vim_state :=
  VimState (vim_options st) (vim_buffers st) (vim_windows st) (vim_current_window st)
           c (vim_evals st) (vim_input_saves st) (vim_replies st).

Definition set_buf_options (o : gmap string pyvalue) (b : buffer) : buffer :=
  Buffer o (buf_name b) (buf_lines b).

Definition set_win_buffer (b : nat) (w : window) : window :=
  Window b (win_cursor w).

Definition set_win_cursor (c : Z * Z) (w : window) : window :=
  Window (win_buffer w) c.

(** ** Python computations *)

Inductive outcome (A : Type) :=
| Normal (a : A)
| Raised (e : exn).
Arguments Normal {A} a.
Arguments Raised {A} e.

(** A block of Python code: it transforms the editor state and either
    completes with a value or raises. *)
Definition M (A : Type) : Type := vim_state -> vim_state * outcome A.

Definition ret {A} (a : A) : M A := fun st => (st, Normal a).

Definition raise {A} (e : exn) : M A := fun st => (st, Raised e).

Definition bind {A B} (c : M A) (k : A -> M B) : M B :=
  fun st =>
    match c st with
    | (st1, Normal a) => k a st1
    | (st1, Raised e) => (st1, Raised e)
    end.

Notation "x <~ c ;; k" := (bind c (fun x => k))
  (at level 100, c at next level, right associativity).
Notation "c ;;; k" := (bind c (fun _ => k))
  (at level 100, right associativity).

(** [try: body finally: fin].  The [finally] block runs on every exit of
    [body]; when it completes, the exit of [body] stands, when it raises,
    its exception replaces it. *)
Definition try_finally {A} (body : M A) (fin : M unit) : M A :=
  fun st =>
    match body st with
    | (st1, r) =>
        match fin st1 with
        | (st2, Normal _) => (st2, r)
        | (st2, Raised e) => (st2, Raised e)
        end
    end.

(** [try: body except <classes>: handler], [catches] telling which
    exceptions the clause matches; a bare [except:] matches all. *)
Definition try_except {A} (body : M A) (catches : exn -> bool) (handler : M A) : M A :=
  fun st =>
    match body st with
    | (st1, Normal a) => (st1, Normal a)
    | (st1, Raised e) => if catches e then handler st1 else (st1, Raised e)
    end.

Definition bare_except : exn -> bool := fun _ => true.

(** ** Generator-based context managers

    A function decorated with [contextlib.contextmanager] runs up to its
    [yield] on entry, keeping its locals [L]; on exit the generator is
    resumed at the [yield], which then either completes (the body ended
    without exception, [next]) or raises the exception of the body
    ([throw]). *)
Record context_manager (L : Type) := ContextManager {
  cm_enter : M L;
  cm_resume : L -> outcome unit -> M unit
}.
Arguments ContextManager {L} _ _.
Arguments cm_enter {L} _.
Arguments cm_resume {L} _ _ _.

(** The [yield] statement of the generator, resumed with outcome [o]. *)
Definition yield_ (o : outcome unit) : M unit := fun st => (st, o).

(** [with cm: body].  The result is [Some a] when [body] completed with [a]
    (which covers a [return] inside the block), and [None] when [body]
    raised and the generator ran to its end, which makes [__exit__] return
    true: the exception is suppressed and execution continues after the
    block.  An exception leaving the generator leaves the statement. *)
Definition with_ {L A} (cm : context_manager L) (body : M A) : M (option A) :=
  fun st =>
    match cm_enter cm st with
    | (st1, Raised e) => (st1, Raised e)
    | (st1, Normal l) =>
        match body st1 with
        | (st2, Normal a) =>
            match cm_resume cm l (Normal tt) st2 with
            | (st3, Normal _) => (st3, Normal (Some a))
            | (st3, Raised e) => (st3, Raised e)
            end
        | (st2, Raised e) =>
            match cm_resume cm l (Raised e) st2 with
            | (st3, Normal _) => (st3, Normal None)
            | (st3, Raised e') => (st3, Raised e')
            end
        end
    end.

(** How the exit of a block shows through a [with] statement whose context
    manager lets exceptions pass. *)
Definition propagated {A} (r : outcome A) : outcome (option A) :=
  match r with
  | Normal a => Normal (Some a)
  | Raised e => Raised e
  end.

(** ** Host API calls used by the module *)

(** [vim.options[ opt ]] *)
Definition vim_options_getitem (opt : string) : M pyvalue :=
  fun st =>
    match vim_options st !! opt with
    | Some v => (st, Normal v)
    | None => (st, Raised (KeyError opt))
    end.

(** [vim.options[ opt ] = v] *)
Definition vim_options_setitem (opt : string) (v : pyvalue) : M unit :=
  fun st => (set_vim_options (<[opt := v]> (vim_options st)) st, Normal tt).

(** [buf.options[ opt ] = v] *)
Definition buf_options_setitem (buf : nat) (opt : string) (v : pyvalue) : M unit :=
  fun st =>
    (set_vim_buffers
       (<[buf := set_buf_options (<[opt := v]> (buf_options (vim_buffers st buf)))
                                 (vim_buffers st buf)]> (vim_buffers st)) st,
     Normal tt).

(** ** The scoped helpers *)

(** [TemporaryVimOption( opt, value )] *)
Definition TemporaryVimOption (opt : string) (value : pyvalue) : context_manager pyvalue :=
  ContextManager
    (old_value <~ vim_options_getitem opt ;;
     vim_options_setitem opt value ;;;
     ret old_value)
    (fun old_value o =>
       try_finally (yield_ o) (vim_options_setitem opt old_value)).

(** [ModifiableScratchBuffer( buf )] *)
Definition ModifiableScratchBuffer (buf : nat) : context_manager unit :=
  ContextManager
    (buf_options_setitem buf "modifiable" (VBool true) ;;;
     buf_options_setitem buf "readonly" (VBool false))
    (fun _ o =>
       try_finally (yield_ o)
         (buf_options_setitem buf "modifiable" (VBool false) ;;;
          buf_options_setitem buf "readonly" (VBool true))).

(** [vim.current.window.cursor] *)
Definition current_window_cursor : M (Z * Z) :=
  fun st => (st, Normal (win_cursor (vim_windows st (vim_current_window st)))).

(** [vim.current.window.cursor = pos] *)
Definition set_current_window_cursor (pos : Z * Z) : M unit :=
  fun st =>
    let w := vim_current_window st in
    (set_vim_windows (<[w := set_win_cursor pos (vim_windows st w)]> (vim_windows st)) st,
     Normal tt).

(** [vim.current.buffer], the buffer shown in the current window. *)
Definition current_buffer : M nat :=
  fun st => (st, Normal (win_buffer (vim_windows st (vim_current_window st)))).

(** [len( buf )], the number of lines of a buffer. *)
Definition buffer_len (buf : nat) : M Z :=
  fun st => (st, Normal (Z.of_nat (length (buf_lines (vim_buffers st buf))))).

(** [vim.current.window] *)
Definition current_window : M nat :=
  fun st => (st, Normal (vim_current_window st)).

(** [vim.current.window = w] *)
Definition set_current_window (w : nat) : M unit :=
  fun st => (set_vim_current_window w st, Normal tt).

(** [window.buffer] *)
Definition window_buffer (w : nat) : M nat :=
  fun st => (st, Normal (win_buffer (vim_windows st w))).

(** [vim.current.buffer = b]: the current window switches to buffer [b]. *)
Definition set_current_buffer (b : nat) : M unit :=
  fun st =>
    let w := vim_current_window st in
    (set_vim_windows (<[w := set_win_buffer b (vim_windows st w)]> (vim_windows st)) st,
     Normal tt).

(** [RestoreCursorPosition()] *)
Definition RestoreCursorPosition : context_manager (Z * Z) :=
  ContextManager
    current_window_cursor
    (fun current_pos o =>
       try_finally (yield_ o)
         (b <~ current_buffer ;;
          n <~ buffer_len b ;;
          set_current_window_cursor (Z.min (fst current_pos) n, snd current_pos))).

(** [RestorCurrentWindow()] *)
Definition RestorCurrentWindow : context_manager nat :=
  ContextManager
    current_window
    (fun old_window o =>
       try_finally (yield_ o) (set_current_window old_window)).

(** [RestoreCurrentBuffer( window )] *)
Definition RestoreCurrentBuffer (window : nat) : context_manager nat :=
  ContextManager
    (window_buffer window)
    (fun old_buffer o =>
       try_finally (yield_ o)
         (with_ RestorCurrentWindow
            (set_current_window window ;;;
             set_current_buffer old_buffer) ;;;
          ret tt)).

(** ** Strings *)

Definition quote : ascii := "'"%char.
Definition newline : ascii := "010"%char.
Definition slash : ascii := "/"%char.
Definition dquote : ascii := "034"%char.
Definition backslash : ascii := "092"%char.

(** [s.replace( old, new )] for a non-empty [old]: occurrences are replaced
    from the left and do not overlap; [skip] counts the characters of a
    match still to be passed over. *)
Fixpoint str_replace_from (old new : string) (skip : nat) (s : string) : string :=
  match s with
  | EmptyString => EmptyString
  | String c s' =>
      match skip with
      | S k => str_replace_from old new k s'
      | O =>
          if String.prefix old s
          then new +:+ str_replace_from old new (String.length old - 1) s'
          else String c (str_replace_from old new 0 s')
      end
  end.

(** With an empty [old], Python puts [new] before every character and at
    the end. *)
Fixpoint str_intersperse (new s : string) : string :=
  match s with
  | EmptyString => EmptyString
  | String c s' => String c (new +:+ str_intersperse new s')
  end.

Definition str_replace (old new s : string) : string :=
  match old with
  | EmptyString => new +:+ str_intersperse new s
  | _ => str_replace_from old new 0 s
  end.

(** [s.split( sep )] for a one-character separator: the pieces between the
    separators, empty pieces included; never an empty list. *)
Fixpoint str_split (sep : ascii) (s : string) : list string :=
  match s with
  | EmptyString => [EmptyString]
  | String c s' =>
      if Ascii.eqb c sep then EmptyString :: str_split sep s'
      else
        match str_split sep s' with
        | piece :: pieces => String c piece :: pieces
        | [] => [String c EmptyString]
        end
  end.

(** [Escape( msg )] *)
Definition Escape (msg : string) : string :=
  str_replace "'" "''" msg.

(** The host's reading of a literal-string, ['...'] in a command or
    expression (Vim's [:help literal-string]): the text is taken as it is,
    except that two quotes stand for one; the first lone quote ends it.
    [literal_text s] reads the text after the opening quote and gives it
    with what follows the closing quote, [None] when no quote closes it. *)
Fixpoint literal_text (s : string) : option (string * string) :=
  match s with
  | EmptyString => None
  | String c s' =>
      if Ascii.eqb c quote then
        match s' with
        | String c' s'' =>
            if Ascii.eqb c' quote then
              match literal_text s'' with
              | Some (t, rest) => Some (String quote t, rest)
              | None => None
              end
            else Some (EmptyString, s')
        | EmptyString => Some (EmptyString, EmptyString)
        end
      else
        match literal_text s' with
        | Some (t, rest) => Some (String c t, rest)
        | None => None
        end
  end.

Definition literal_string (s : string) : option (string * string) :=
  match s with
  | String c s' => if Ascii.eqb c quote then literal_text s' else None
  | EmptyString => None
  end.

(** ** Messages and prompts *)

(** [vim.command( cmd )]: the command is handed to the host. *)
Definition vim_command (cmd : string) : M unit :=
  fun st => (set_vim_commands (vim_commands st ++ [cmd]) st, Normal tt).

(** [for x in xs: body( x )] *)
Fixpoint for_each {A} (xs : list A) (body : A -> M unit) : M unit :=
  match xs with
  | [] => ret tt
  | x :: xs' => body x ;;; for_each xs' body
  end.

(** [UserMessage( msg, persist=False )] *)
Definition UserMessage (msg : string) (persist : bool) : M unit :=
  vim_command "redraw" ;;;
  let cmd := if persist then "echom" else "echo" in
  for_each (str_split newline msg)
    (fun line => vim_command (cmd +:+ " '" +:+ Escape line +:+ "'")).

(** [vim.eval( expr )].  [inputsave()] and [inputrestore()] push and pop
    the saved typeahead and return the host's Number as a string;
    any other expression is a prompt, answered by the next reply of the
    user (a host error when none is left). *)
Definition vim_eval (expr : string) : M string :=
  fun st =>
    let log := (vim_evals st ++ [expr])%list in
    let mk saves replies :=
      VimState (vim_options st) (vim_buffers st) (vim_windows st)
               (vim_current_window st) (vim_commands st) log saves replies in
    if String.eqb expr "inputsave()" then
      (mk (S (vim_input_saves st)) (vim_replies st), Normal "0")
    else if String.eqb expr "inputrestore()" then
      match vim_input_saves st with
      | O => (mk O (vim_replies st), Normal "1")
      | S n => (mk n (vim_replies st), Normal "0")
      end
    else
      match vim_replies st with
      | Answer s :: rest => (mk (vim_input_saves st) rest, Normal s)
      | Interrupt :: rest => (mk (vim_input_saves st) rest, Raised KeyboardInterrupt)
      | HostError msg :: rest => (mk (vim_input_saves st) rest, Raised (VimError msg))
      | [] => (mk (vim_input_saves st) [], Raised (VimError "no reply"))
      end.

(** [int( s )] on the decimal strings the host produces: an optional minus
    sign and digits; anything else raises [ValueError]. *)
Definition python_int (s : string) : M Z :=
  match NilZero.int_of_string s with
  | Some d => ret (Z.of_int d)
  | None => raise (ValueError s)
  end.

(** [str( n )] for a Python int, as the host writes a Number. *)
Definition decimal (n : Z) : string := NilZero.string_of_int (Z.to_int n).

(** [l[ i ]] with Python's indexing: a negative index counts from the
    end, an index out of range raises [IndexError]. *)
Definition list_getitem {A} (l : list A) (i : Z) : M A :=
  let len := Z.of_nat (length l) in
  let j := if i <? 0 then i + len else i in
  if (j <? 0) || (len <=? j) then raise (OtherError "IndexError")
  else
    match l !! Z.to_nat j with
    | Some a => ret a
    | None => raise (OtherError "IndexError")
    end.

(** [InputSave()] *)
Definition InputSave : context_manager unit :=
  ContextManager
    (vim_eval "inputsave()" ;;; ret tt)
    (fun _ o =>
       try_except (yield_ o) bare_except
         (vim_eval "inputrestore()" ;;; ret tt)).

Section Prompts.

(** [json.dumps] on a list of strings, from Python's standard library. *)
Variable json_dumps : list string -> string.

(** [[ '{0}: {1}'.format( i + 1, v ) for i, v in enumerate( options ) ]] *)
Definition numbered (options : list string) : list string :=
  imap (fun i v => decimal (Z.of_nat i + 1) +:+ ": " +:+ v) options.

(** [SelectFromList( prompt, options )].  [None] is Python's [None]; the
    function also returns it when the [with] block ends without
    [return], which happens when [InputSave] suppresses an exception. *)
Definition SelectFromList (prompt : string) (options : list string) : M (option string) :=
  returned <~ with_ InputSave
    (let display_options := ([prompt] ++ numbered options)%list in
     try_except
       (answer <~ vim_eval ("inputlist( " +:+ json_dumps display_options +:+ " )") ;;
        number <~ python_int answer ;;
        let selection := number - 1 in
        if (selection <? 0) || (Z.of_nat (length options) <=? selection)
        then ret None
        else (v <~ list_getitem options selection ;; ret (Some v)))
       is_KeyboardInterrupt
       (ret None)) ;;
  match returned with
  | Some v => ret v
  | None => ret None
  end.

End Prompts.

(** [AskForInput( prompt )] *)
Definition AskForInput (prompt : string) : M (option string) :=
  with_ InputSave (vim_eval ("input( '" +:+ Escape prompt +:+ "' )")).

(** ** Looking for a configuration file *)

Section ConfigFile.

(** The operating-system interface used by the lookup: [os.getcwd()],
    [os.path.join], [os.path.exists] and [os.path.dirname]. *)
Variable getcwd : string.
Variable path_join : string -> string -> string.
Variable path_exists : string -> bool.
Variable path_dirname : string -> string.

(** The [while True] loop of [PathToConfigFile], [fuel] bounding the
    number of iterations: [None] when the bound is hit, [Some r] when
    the loop returns [r]. *)
Fixpoint PathToConfigFile_from (fuel : nat) (file_name p : string)
  : option (option string) :=
  match fuel with
  | O => None
  | S fuel' =>
      let candidate := path_join p file_name in
      if path_exists candidate then Some (Some candidate)
      else
        let parent := path_dirname p in
        if String.eqb parent p then Some None
        else PathToConfigFile_from fuel' file_name parent
  end.

(** [PathToConfigFile( file_name )] *)
Definition PathToConfigFile (fuel : nat) (file_name : string) : option (option string) :=
  PathToConfigFile_from fuel file_name getcwd.

(** The directory reached from [p] by taking the parent [k] times. *)
Fixpoint ancestor (k : nat) (p : string) : string :=
  match k with
  | O => p
  | S k' => ancestor k' (path_dirname p)
  end.

End ConfigFile.

(** [posixpath.dirname] and [posixpath.join] of Python's standard library,
    on which the lookup runs on a POSIX host. *)
Module Posix.

Fixpoint has_slash (s : string) : bool :=
  match s with
  | EmptyString => false
  | String c s' => Ascii.eqb c slash || has_slash s'
  end.

Fixpoint all_slash (s : string) : bool :=
  match s with
  | EmptyString => true
  | String c s' => Ascii.eqb c slash && all_slash s'
  end.

(** [p[ : p.rfind( '/' ) + 1 ]] *)
Fixpoint head (p : string) : string :=
  match p with
  | EmptyString => EmptyString
  | String c p' =>
      if has_slash p' then String c (head p')
      else if Ascii.eqb c slash then String c EmptyString
      else EmptyString
  end.

(** [s.rstrip( '/' )] *)
Fixpoint rstrip_slash (s : string) : string :=
  match s with
  | EmptyString => EmptyString
  | String c s' =>
      match rstrip_slash s' with
      | EmptyString => if Ascii.eqb c slash then EmptyString else String c EmptyString
      | r => String c r
      end
  end.

Definition dirname (p : string) : string :=
  let h := head p in
  if negb (String.eqb h EmptyString) && negb (all_slash h)
  then rstrip_slash h
  else h.

Definition ends_with_slash (s : string) : bool :=
  match String.get (String.length s - 1) s with
  | Some c => Ascii.eqb c slash
  | None => false
  end.

Definition join (a b : string) : string :=
  if String.prefix "/" b then b
  else if String.eqb a EmptyString || ends_with_slash a then a +:+ b
  else a +:+ "/" +:+ b.

End Posix.

(** ** Logging *)

(** [logging.Logger]: its level and its handlers, in the order they were
    added; a handler is an object, known by its identity. *)
Record logger := Logger {
  level : Z;
  handlers : list nat
}.

Definition DEBUG : Z := 10.

(** [logger.setLevel( l )] *)
Definition setLevel (l : Z) (lg : logger) : logger :=
  Logger l (handlers lg).

(** [logger.addHandler( h )], taken as a plain append to [handlers]. *)
Definition addHandler (h : nat) (lg : logger) : logger :=
  Logger (level lg) (handlers lg ++ [h])%list.

Section Logging.

(** The module-level file handler, created once at import. *)
Variable _log_handler : nat.

(** [SetUpLogging( logger )] *)
Definition SetUpLogging (lg : logger) : logger :=
  let lg := setLevel DEBUG lg in
  if bool_decide (_log_handler ∈ handlers lg) then lg
  else addHandler _log_handler lg.

End Logging.

(** ** Observations used in the statements *)

(** The value of option [opt] of buffer [buf]. *)
Definition buf_option (st : vim_state) (buf : nat) (opt : string) : option pyvalue :=
  buf_options (vim_buffers st buf) !! opt.

(** The number of lines of the buffer shown in the current window. *)
Definition current_line_count (st : vim_state) : Z :=
  Z.of_nat (length (buf_lines (vim_buffers st (win_buffer (vim_windows st (vim_current_window st)))))).

(** A state with one option, one three-line buffer shown in every window
    with the cursor at (3, 4), nothing saved, and a user who will do
    [replies] at the coming prompts. *)
Definition demo_state_replying (replies : list reply) : vim_state :=
  VimState {[ "more" := VBool true ]}
           (fun _ => Buffer ∅ EmptyString ["one"; "two"; "three"])
           (fun _ => Window 0%nat (3, 4))
           0%nat [] [] 0%nat replies.

Definition demo_state : vim_state := demo_state_replying [Answer "2"].

(** How often logger [lg] holds handler [h]. *)
Definition times_attached (h : nat) (lg : logger) : nat :=
  length (filter (eq h) (handlers lg)).

(** Quote doubling as the specification words it: every quote character
    of the text is written twice, every other character once. *)
Fixpoint double_quotes (s : string) : string :=
  match s with
  | EmptyString => EmptyString
  | String c s' =>
      if Ascii.eqb c quote then String quote (String quote (double_quotes s'))
      else String c (double_quotes s')
  end.

(** The command that shows one line of a message. *)
Definition echo_command (persist : bool) (line : string) : string :=
  (if persist then "echom" else "echo") +:+ " '" +:+ Escape line +:+ "'".

(** Whether character [c] occurs in [s]. *)
Fixpoint contains_char (c : ascii) (s : string) : bool :=
  match s with
  | EmptyString => false
  | String c' s' => Ascii.eqb c' c || contains_char c s'
  end.

(** The state right after [vim.eval( 'inputsave()' )] and right after
    [vim.eval( 'inputrestore()' )]. *)
Definition input_saved (st : vim_state) : vim_state := (vim_eval "inputsave()" st).1.
Definition input_restored (st : vim_state) : vim_state := (vim_eval "inputrestore()" st).1.

(** The state after the user's reply to a prompt with expression [expr]. *)
Definition prompted (expr : string) (st : vim_state) : vim_state :=
  VimState (vim_options st) (vim_buffers st) (vim_windows st)
           (vim_current_window st) (vim_commands st)
           (vim_evals st ++ [expr])%list (vim_input_saves st) (tail (vim_replies st)).

(** How a prompt ends, given what the user will do. *)
Definition reply_outcome (rs : list reply) : outcome string :=
  match rs with
  | Answer s :: _ => Normal s
  | Interrupt :: _ => Raised KeyboardInterrupt
  | HostError msg :: _ => Raised (VimError msg)
  | [] => Raised (VimError "no reply")
  end.

(** The expression [SelectFromList] evaluates. *)
Definition inputlist_expr (json_dumps : list string -> string)
    (prompt : string) (options : list string) : string :=
  "inputlist( " +:+ json_dumps ([prompt] ++ numbered options)%list +:+ " )".

(** [json.dumps] on a list of strings made of printable ASCII characters:
    the strings between double quotes, with double quotes and backslashes
    escaped by a backslash, separated by a comma and a space, between
    brackets. *)
Fixpoint json_escape (s : string) : string :=
  match s with
  | EmptyString => EmptyString
  | String c s' =>
      if Ascii.eqb c dquote || Ascii.eqb c backslash
      then String backslash (String c (json_escape s'))
      else String c (json_escape s')
  end.

Definition json_dumps_ascii (l : list string) : string :=
  "[" +:+ String.concat ", "
            (map (fun s => String dquote (json_escape s +:+ String dquote EmptyString)) l)
      +:+ "]".

(** A file system where only [/a/.vimspector.json] exists. *)
Definition demo_exists (p : string) : bool := String.eqb p "/a/.vimspector.json".

(** ** Setting up display buffers *)

(** [buf.name = name] *)
Definition buf_set_name (buf : nat) (name : string) : M unit :=
  fun st =>
    (set_vim_buffers
       (<[buf := Buffer (buf_options (vim_buffers st buf)) name
                        (buf_lines (vim_buffers st buf))]> (vim_buffers st)) st,
     Normal tt).

(** [SetUpScratchBuffer( buf, name )] *)
Definition SetUpScratchBuffer (buf : nat) (name : string) : M unit :=
  buf_options_setitem buf "buftype" (VStr "nofile") ;;;
  buf_options_setitem buf "swapfile" (VBool false) ;;;
  buf_options_setitem buf "modifiable" (VBool false) ;;;
  buf_options_setitem buf "modified" (VBool false) ;;;
  buf_options_setitem buf "readonly" (VBool true) ;;;
  buf_options_setitem buf "buflisted" (VBool false) ;;;
  buf_options_setitem buf "bufhidden" (VStr "wipe") ;;;
  buf_set_name buf name.

(** [SetUpHiddenBuffer( buf, name )] *)
Definition SetUpHiddenBuffer (buf : nat) (name : string) : M unit :=
  buf_options_setitem buf "buftype" (VStr "nofile") ;;;
  buf_options_setitem buf "swapfile" (VBool false) ;;;
  buf_options_setitem buf "modifiable" (VBool false) ;;;
  buf_options_setitem buf "modified" (VBool false) ;;;
  buf_options_setitem buf "readonly" (VBool true) ;;;
  buf_options_setitem buf "buflisted" (VBool false) ;;;
  buf_options_setitem buf "bufhidden" (VStr "hide") ;;;
  buf_set_name buf name.

(** Two states that differ at most in their buffers. *)
Definition same_outside_buffers (st st' : vim_state) : Prop :=
  vim_options st' = vim_options st /\
  vim_windows st' = vim_windows st /\
  vim_current_window st' = vim_current_window st /\
  vim_commands st' = vim_commands st /\
  vim_evals st' = vim_evals st /\
  vim_input_saves st' = vim_input_saves st /\
  vim_replies st' = vim_replies st.

(** How often character [c] occurs in [s]. *)
Fixpoint count_char (c : ascii) (s : string) : nat :=
  match s with
  | EmptyString => 0%nat
  | String c' s' => ((if Ascii.eqb c' c then 1 else 0) + count_char c s')%nat
  end.

(** The host's reading of a command issued by [UserMessage]: the command
    word, one space, and a literal-string up to the end of the command;
    [None] for any other text. *)
Definition read_echo (persist : bool) (cmd : string) : option string :=
  let word := (if persist then "echom" else "echo") +:+ " " in
  if String.prefix word cmd then
    match literal_string (String.substring (String.length word)
                            (String.length cmd - String.length word) cmd) with
    | Some (text, EmptyString) => Some text
    | _ => None
    end
  else None.

(** Reading a list of commands, all of which must be readable. *)
Fixpoint read_echoes (persist : bool) (cmds : list string) : option (list string) :=
  match cmds with
  | [] => Some []
  | cmd :: cmds' =>
      match read_echo persist cmd, read_echoes persist cmds' with
      | Some text, Some texts => Some (text :: texts)
      | _, _ => None
      end
  end.

(** * Properties *)

(** Looking up a key in a map built by assignments to literal keys. *)
Ltac option_lookup :=
  repeat (rewrite lookup_insert_eq || rewrite lookup_insert_ne by discriminate);
  reflexivity.

(** ** Exits of blocks *)

Lemma with_finally_exit {L A} (enter : M L) (fin : L -> M unit) (body : M A) st l st1 :
  enter st = (st1, Normal l) ->
  (forall st', exists st'', fin l st' = (st'', Normal tt)) ->
  with_ (ContextManager enter (fun l o => try_finally (yield_ o) (fin l))) body st
  = ((fin l (body st1).1).1, propagated (body st1).2).
Proof.
  intros Hent Hfin. unfold with_, try_finally, yield_. simpl. rewrite Hent.
  destruct (body st1) as [st2 [a|e]]; simpl;
    destruct (Hfin st2) as [st3 ->]; reflexivity.
Qed.

(** ** TemporaryVimOption *)

(** C1: with option [opt] holding [old_value] before the call, the body of
    [with TemporaryVimOption( opt, value )] runs in the state where [opt]
    holds [value]; whether the body returns or raises, afterwards [opt]
    holds [old_value] again, and the exit of the body (its value or its
    exception) is the exit of the statement. *)
Theorem TemporaryVimOption_restores {A} (opt : string) (value old_value : pyvalue)
    (body : M A) (st : vim_state) :
  vim_options st !! opt = Some old_value ->
  let st1 := set_vim_options (<[opt := value]> (vim_options st)) st in
  let out := with_ (TemporaryVimOption opt value) body st in
  vim_options st1 !! opt = Some value /\
  out.1 = set_vim_options (<[opt := old_value]> (vim_options (body st1).1)) (body st1).1 /\
  vim_options out.1 !! opt = Some old_value /\
  out.2 = propagated (body st1).2.
Proof.
  intros Hold st1 out.
  assert (Hout : out = (set_vim_options (<[opt := old_value]> (vim_options (body st1).1))
                          (body st1).1, propagated (body st1).2)).
  { subst out. unfold TemporaryVimOption.
    erewrite with_finally_exit with (l := old_value) (st1 := st1).
    - reflexivity.
    - unfold bind, vim_options_getitem, vim_options_setitem, ret. rewrite Hold. reflexivity.
    - intros st'. eexists. reflexivity. }
  rewrite Hout. simpl. split; [apply lookup_insert_eq|].
  split; [reflexivity|]. split; [apply lookup_insert_eq|reflexivity].
Qed.

(** An option the host does not know: the lookup raises before anything is
    changed, and the body does not run. *)
Lemma TemporaryVimOption_unknown_option {A} (opt : string) (value : pyvalue)
    (body : M A) (st : vim_state) :
  vim_options st !! opt = None ->
  with_ (TemporaryVimOption opt value) body st = (st, Raised (KeyError opt)).
Proof.
  intros Hnone. unfold with_, TemporaryVimOption, bind, vim_options_getitem. simpl.
  rewrite Hnone. reflexivity.
Qed.

Lemma TemporaryVimOption_restores_witness :
  vim_options demo_state !! "more" = Some (VBool true) /\
  vim_options (with_ (TemporaryVimOption "more" (VBool false))
                     (vim_options_setitem "more" (VInt 7) ;;; raise (A := unit) (OtherError "boom"))
                     demo_state).1 !! "more" = Some (VBool true) /\
  (with_ (TemporaryVimOption "more" (VBool false))
         (vim_options_setitem "more" (VInt 7) ;;; raise (A := unit) (OtherError "boom"))
         demo_state).2 = Raised (OtherError "boom").
Proof.
  assert (H : vim_options demo_state !! "more" = Some (VBool true)) by reflexivity.
  split; [exact H|].
  destruct (TemporaryVimOption_restores "more" (VBool false) (VBool true)
              (vim_options_setitem "more" (VInt 7) ;;; raise (A := unit) (OtherError "boom"))
              demo_state H) as (_ & _ & Hopt & Hexit).
  split; [exact Hopt | exact Hexit].
Defined.

(** ** ModifiableScratchBuffer *)

(** C2: the body of [with ModifiableScratchBuffer( buf )] runs in the state
    reached by the two assignments before the [yield], where [buf] has
    modifiable on and readonly off; whether the body returns or raises, the
    statement ends with modifiable off and readonly on for [buf], and with
    the exit of the body. *)
Theorem ModifiableScratchBuffer_scope {A} (buf : nat) (body : M A) (st : vim_state) :
  let st1 := (cm_enter (ModifiableScratchBuffer buf) st).1 in
  let out := with_ (ModifiableScratchBuffer buf) body st in
  (buf_option st1 buf "modifiable" = Some (VBool true) /\
   buf_option st1 buf "readonly" = Some (VBool false)) /\
  (buf_option out.1 buf "modifiable" = Some (VBool false) /\
   buf_option out.1 buf "readonly" = Some (VBool true)) /\
  out.2 = propagated (body st1).2.
Proof.
  intros st1 out.
  assert (Hout : out =
    ((cm_resume (ModifiableScratchBuffer buf) tt (Normal tt) (body st1).1).1,
     propagated (body st1).2)).
  { subst out st1. unfold ModifiableScratchBuffer.
    erewrite with_finally_exit; [reflexivity|reflexivity|].
    intros st'. eexists. reflexivity. }
  rewrite Hout. subst st1. unfold buf_option. simpl.
  rewrite !fn_lookup_insert. simpl.
  repeat split; try reflexivity; option_lookup.
Qed.

(** Only the options of [buf] are touched on entry. *)
Lemma ModifiableScratchBuffer_enter_frame (buf : nat) (st : vim_state) (b : nat) :
  b <> buf ->
  vim_buffers (cm_enter (ModifiableScratchBuffer buf) st).1 b = vim_buffers st b.
Proof.
  intros Hne. simpl. rewrite !fn_lookup_insert_ne by congruence. reflexivity.
Qed.

(** ** RestoreCursorPosition *)

(** C5: with the cursor of the current window at (C, col) on entry,
    [with RestoreCursorPosition()] ends, whether the body returns or
    raises, with the cursor of the window current at that time at
    (min(C, L'), col), L' being the number of lines of the buffer shown
    there after the body; nothing else changes after the body, and the
    exit of the body is the exit of the statement. *)
Theorem RestoreCursorPosition_clamps {A} (body : M A) (st : vim_state) :
  let pos := win_cursor (vim_windows st (vim_current_window st)) in
  let st2 := (body st).1 in
  let w := vim_current_window st2 in
  let out := with_ RestoreCursorPosition body st in
  win_cursor (vim_windows out.1 (vim_current_window out.1))
    = (Z.min pos.1 (current_line_count st2), pos.2) /\
  out.1 = set_vim_windows
            (<[w := set_win_cursor (Z.min pos.1 (current_line_count st2), pos.2)
                      (vim_windows st2 w)]> (vim_windows st2)) st2 /\
  out.2 = propagated (body st).2.
Proof.
  intros pos st2 w out.
  assert (Hout : out =
    (set_vim_windows
       (<[w := set_win_cursor (Z.min pos.1 (current_line_count st2), pos.2)
                 (vim_windows st2 w)]> (vim_windows st2)) st2,
     propagated (body st).2)).
  { subst out. unfold RestoreCursorPosition.
    erewrite with_finally_exit with (l := pos) (st1 := st);
      [reflexivity|reflexivity|].
    intros st'. eexists. reflexivity. }
  rewrite Hout. simpl. rewrite fn_lookup_insert. repeat split; reflexivity.
Qed.

(** ** RestoreCurrentBuffer *)

(** The restoration step of [RestoreCurrentBuffer]: it shows [old_buffer]
    in [window] and leaves the current window as it found it. *)
Lemma RestoreCurrentBuffer_finally (window old_buffer : nat) (st : vim_state) :
  (with_ RestorCurrentWindow
     (set_current_window window ;;; set_current_buffer old_buffer) ;;; ret tt) st
  = (set_vim_windows
       (<[window := set_win_buffer old_buffer (vim_windows st window)]> (vim_windows st)) st,
     Normal tt).
Proof. destruct st. reflexivity. Qed.

(** C9: the restoration step of [with RestoreCurrentBuffer( window )]
    first makes [window] the current window; the statement ends, whether
    the body returns or raises, with [window] showing the buffer it showed
    on entry and with the current window being the one that was current
    when the body ended; after the body only the buffer of [window]
    changes. *)
Theorem RestoreCurrentBuffer_keeps_current_window {A} (window : nat) (body : M A)
    (st : vim_state) :
  let old_buffer := win_buffer (vim_windows st window) in
  let st2 := (body st).1 in
  let out := with_ (RestoreCurrentBuffer window) body st in
  vim_current_window (set_current_window window st2).1 = window /\
  win_buffer (vim_windows out.1 window) = old_buffer /\
  vim_current_window out.1 = vim_current_window st2 /\
  out.1 = set_vim_windows
            (<[window := set_win_buffer old_buffer (vim_windows st2 window)]>
               (vim_windows st2)) st2 /\
  out.2 = propagated (body st).2.
Proof.
  intros old_buffer st2 out.
  assert (Hout : out =
    (set_vim_windows
       (<[window := set_win_buffer old_buffer (vim_windows st2 window)]>
          (vim_windows st2)) st2,
     propagated (body st).2)).
  { subst out. unfold RestoreCurrentBuffer.
    erewrite with_finally_exit with (l := old_buffer) (st1 := st).
    - rewrite RestoreCurrentBuffer_finally. reflexivity.
    - reflexivity.
    - intros st'. eexists. apply RestoreCurrentBuffer_finally. }
  rewrite Hout. simpl. rewrite fn_lookup_insert. repeat split; reflexivity.
Qed.

(** ** SetUpLogging *)

Section LoggingFacts.

Variable h : nat.

Lemma SetUpLogging_attached (lg : logger) :
  h ∈ handlers (SetUpLogging h lg).
Proof.
  unfold SetUpLogging. simpl. case_bool_decide as Hin; simpl.
  - exact Hin.
  - apply elem_of_app. right. apply list_elem_of_singleton. reflexivity.
Qed.

Lemma SetUpLogging_handlers_present (lg : logger) :
  h ∈ handlers lg -> handlers (SetUpLogging h lg) = handlers lg.
Proof.
  intros Hin. unfold SetUpLogging. simpl. rewrite bool_decide_eq_true_2 by exact Hin.
  reflexivity.
Qed.

Lemma SetUpLogging_handlers_absent (lg : logger) :
  h ∉ handlers lg -> handlers (SetUpLogging h lg) = (handlers lg ++ [h])%list.
Proof.
  intros Hin. unfold SetUpLogging. simpl. rewrite bool_decide_eq_false_2 by exact Hin.
  reflexivity.
Qed.

Lemma SetUpLogging_level (lg : logger) : level (SetUpLogging h lg) = DEBUG.
Proof. unfold SetUpLogging. simpl. case_bool_decide; reflexivity. Qed.

Lemma SetUpLogging_twice (lg : logger) :
  SetUpLogging h (SetUpLogging h lg) = SetUpLogging h lg.
Proof.
  pose proof (SetUpLogging_attached lg) as Hin.
  pose proof (SetUpLogging_level lg) as Hlv.
  destruct (SetUpLogging h lg) as [lv hs] eqn:E. simpl in *.
  unfold SetUpLogging. simpl. rewrite bool_decide_eq_true_2 by exact Hin.
  unfold setLevel. simpl. congruence.
Qed.

Lemma not_elem_of_filter_eq (l : list nat) :
  h ∉ l -> filter (eq h) l = [].
Proof.
  induction l as [|x l IH]; intros Hn; [reflexivity|].
  apply not_elem_of_cons in Hn as [Hx Hl].
  rewrite filter_cons_False by congruence. auto.
Qed.

Lemma times_attached_SetUpLogging (lg : logger) :
  times_attached h (SetUpLogging h lg)
  = match times_attached h lg with O => 1%nat | n => n end.
Proof.
  unfold times_attached. destruct (decide (h ∈ handlers lg)) as [Hin|Hin].
  - rewrite SetUpLogging_handlers_present by exact Hin.
    destruct (filter (eq h) (handlers lg)) eqn:E; [|reflexivity].
    exfalso. assert (Hf : h ∈ filter (eq h) (handlers lg))
      by (apply list_elem_of_filter; split; [reflexivity|exact Hin]).
    rewrite E in Hf. inversion Hf.
  - rewrite SetUpLogging_handlers_absent by exact Hin.
    rewrite list.filter_app, !not_elem_of_filter_eq by exact Hin.
    rewrite filter_cons_True by reflexivity. reflexivity.
Qed.

Lemma SetUpLogging_iter (n : nat) (lg : logger) :
  Nat.iter (S n) (SetUpLogging h) lg = SetUpLogging h lg.
Proof.
  induction n as [|n IH]; [reflexivity|].
  change (Nat.iter (S (S n)) (SetUpLogging h) lg)
    with (SetUpLogging h (Nat.iter (S n) (SetUpLogging h) lg)).
  rewrite IH. apply SetUpLogging_twice.
Qed.

End LoggingFacts.

(** C8: a call of [SetUpLogging] on a logger that already holds the shared
    handler leaves its handlers as they are; a second call, and any
    further one, changes nothing; and a logger that holds the handler at
    most once holds it at most once after any number of calls (exactly
    once after the first). *)
Theorem SetUpLogging_idempotent (_log_handler : nat) (lg : logger) :
  (_log_handler ∈ handlers lg ->
     handlers (SetUpLogging _log_handler lg) = handlers lg) /\
  (forall n : nat,
     Nat.iter (S n) (SetUpLogging _log_handler) lg = SetUpLogging _log_handler lg) /\
  ((times_attached _log_handler lg <= 1)%nat ->
   forall n : nat,
     times_attached _log_handler (Nat.iter (S n) (SetUpLogging _log_handler) lg) = 1%nat).
Proof.
  split; [apply SetUpLogging_handlers_present|].
  split; [intros n; apply SetUpLogging_iter|].
  intros Hle n. rewrite SetUpLogging_iter, times_attached_SetUpLogging.
  destruct (times_attached _log_handler lg) as [|[|k]]; [reflexivity|reflexivity|lia].
Qed.

Lemma SetUpLogging_idempotent_witness :
  (7%nat ∈ handlers (Logger 20 [3%nat; 7%nat]) /\
   (times_attached 7 (Logger 20 [3%nat; 7%nat]) <= 1)%nat) /\
  handlers (SetUpLogging 7 (Logger 20 [3%nat; 7%nat])) = [3%nat; 7%nat] /\
  times_attached 7 (Nat.iter 3 (SetUpLogging 7) (Logger 20 [3%nat; 7%nat])) = 1%nat.
Proof.
  assert (Hin : 7%nat ∈ handlers (Logger 20 [3%nat; 7%nat])).
  { simpl. apply list_elem_of_In. simpl. right. left. reflexivity. }
  assert (Hle : (times_attached 7 (Logger 20 [3%nat; 7%nat]) <= 1)%nat).
  { vm_compute. lia. }
  split; [split; [exact Hin|exact Hle]|].
  destruct (SetUpLogging_idempotent 7 (Logger 20 [3%nat; 7%nat])) as (H1 & _ & H3).
  split; [exact (H1 Hin)|exact (H3 Hle 2%nat)].
Defined.

(** ** Escape and UserMessage *)

Lemma set_vim_commands_id (st : vim_state) :
  set_vim_commands (vim_commands st) st = st.
Proof. destruct st; reflexivity. Qed.

Lemma for_each_vim_command {X} (f : X -> string) (xs : list X) (st : vim_state) :
  for_each xs (fun x => vim_command (f x)) st
  = (set_vim_commands (vim_commands st ++ map f xs) st, Normal tt).
Proof.
  revert st. induction xs as [|x xs IH]; intros st; simpl.
  - rewrite app_nil_r, set_vim_commands_id. reflexivity.
  - unfold bind, vim_command at 1. rewrite IH. simpl.
    rewrite <- app_assoc. reflexivity.
Qed.

Lemma prefix_one_char (a c : ascii) (s : string) :
  String.prefix (String a EmptyString) (String c s) = Ascii.eqb c a.
Proof.
  cbn [String.prefix]. destruct (ascii_dec a c) as [->|Hne].
  - rewrite Ascii.eqb_refl. destruct s; reflexivity.
  - symmetry. apply Ascii.eqb_neq. congruence.
Qed.

Lemma Escape_cons (c : ascii) (s : string) :
  Escape (String c s)
  = if Ascii.eqb c quote then String quote (String quote (Escape s))
    else String c (Escape s).
Proof.
  unfold Escape, str_replace.
  change (str_replace_from "'" "''" 0 (String c s))
    with (if String.prefix "'" (String c s)
          then "''" +:+ str_replace_from "'" "''" 0 s
          else String c (str_replace_from "'" "''" 0 s)).
  rewrite prefix_one_char. reflexivity.
Qed.

(** [Escape] writes every quote twice and every other character once. *)
Lemma Escape_double_quotes (s : string) : Escape s = double_quotes s.
Proof.
  induction s as [|c s IH]; [reflexivity|].
  rewrite Escape_cons. simpl. rewrite IH. reflexivity.
Qed.

(** Between quotes, the escaped text is read back by the host as the
    text itself, and the closing quote is the one that was appended. *)
Lemma literal_text_Escape (s : string) :
  literal_text (Escape s +:+ "'") = Some (s, EmptyString).
Proof.
  induction s as [|c s IH]; [reflexivity|].
  rewrite Escape_cons. destruct (Ascii.eqb c quote) eqn:E.
  - apply Ascii.eqb_eq in E. subst c.
    change (literal_text (String quote (String quote (Escape s +:+ "'")))
            = Some (String quote s, EmptyString)).
    simpl. simpl in IH. rewrite IH. reflexivity.
  - change (literal_text (String c (Escape s +:+ "'")) = Some (String c s, EmptyString)).
    simpl. rewrite E. simpl in IH. rewrite IH. reflexivity.
Qed.

(** Joining the pieces of a split with the separator gives the text back,
    and no piece holds the separator. *)
Lemma str_split_nonempty (sep : ascii) (s : string) : str_split sep s <> [].
Proof.
  destruct s as [|c s]; simpl; [discriminate|].
  destruct (Ascii.eqb c sep); [discriminate|].
  destruct (str_split sep s); discriminate.
Qed.

Lemma str_split_concat (sep : ascii) (s : string) :
  String.concat (String sep EmptyString) (str_split sep s) = s.
Proof.
  induction s as [|c s IH]; [reflexivity|].
  pose proof (str_split_nonempty sep s) as Hne.
  simpl. destruct (Ascii.eqb c sep) eqn:E.
  - apply Ascii.eqb_eq in E. subst c.
    destruct (str_split sep s) as [|p ps] eqn:Es; [congruence|].
    simpl in *. rewrite IH. reflexivity.
  - destruct (str_split sep s) as [|p ps] eqn:Es; [congruence|].
    destruct ps; simpl in *; rewrite <- IH; reflexivity.
Qed.

Lemma str_split_no_sep (sep : ascii) (s : string) :
  Forall (fun piece => contains_char sep piece = false) (str_split sep s).
Proof.
  induction s as [|c s IH]; simpl.
  - repeat constructor.
  - destruct (Ascii.eqb c sep) eqn:E.
    + constructor; [reflexivity|exact IH].
    + destruct (str_split sep s) as [|p ps]; [repeat constructor; simpl; rewrite E; reflexivity|].
      inversion IH; subst. constructor; [simpl; rewrite E; assumption|assumption].
Qed.

(** C7: [UserMessage] hands the host first [redraw] and then, for each line
    of the message split at newlines (the lines hold no newline and joined
    by newlines give the message) and in their order, exactly one
    command, [echom] when persisting and [echo] otherwise, followed by a
    space and the line between quotes with each of its quotes doubled; the
    quoted argument is one whole literal-string that the host reads back
    as the line; [it's] is written [it''s]. *)
Theorem UserMessage_commands (msg : string) (persist : bool) (st : vim_state) :
  UserMessage msg persist st
  = (set_vim_commands
       (vim_commands st ++ "redraw" :: map (echo_command persist) (str_split newline msg)) st,
     Normal tt) /\
  String.concat (String newline EmptyString) (str_split newline msg) = msg /\
  Forall (fun line => contains_char newline line = false) (str_split newline msg) /\
  (forall line : string,
     echo_command persist line
     = (if persist then "echom" else "echo") +:+ " '" +:+ double_quotes line +:+ "'" /\
     literal_string ("'" +:+ Escape line +:+ "'") = Some (line, EmptyString)) /\
  Escape "it's" = "it''s".
Proof.
  split; [|split; [|split; [|split]]].
  - unfold UserMessage, bind, vim_command at 1.
    rewrite (for_each_vim_command (echo_command persist)). simpl.
    rewrite <- app_assoc. reflexivity.
  - apply str_split_concat.
  - apply str_split_no_sep.
  - intros line. split.
    + unfold echo_command. rewrite Escape_double_quotes. reflexivity.
    + apply literal_text_Escape.
  - reflexivity.
Qed.

(** ** InputSave and the prompts *)

(** A [with InputSave()] block: the typeahead is saved on entry; when the
    body completes, nothing more is evaluated; when the body raises,
    [inputrestore()] is evaluated and the exception goes no further. *)
Lemma with_InputSave {A} (body : M A) (st : vim_state) :
  with_ InputSave body st
  = match body (input_saved st) with
    | (st2, Normal a) => (st2, Normal (Some a))
    | (st2, Raised e) => (input_restored st2, Normal None)
    end.
Proof.
  unfold with_, InputSave, input_saved, input_restored. simpl.
  unfold bind at 1. simpl.
  destruct (body _) as [st2 [a|e]]; simpl; [reflexivity|].
  unfold try_except, yield_, bare_except, bind, vim_eval. simpl.
  destruct (vim_input_saves st2); reflexivity.
Qed.

Lemma vim_eval_prompt (expr : string) (st : vim_state) :
  String.eqb expr "inputsave()" = false ->
  String.eqb expr "inputrestore()" = false ->
  vim_eval expr st = (prompted expr st, reply_outcome (vim_replies st)).
Proof.
  intros H1 H2. unfold vim_eval, prompted, reply_outcome. rewrite H1, H2.
  destruct (vim_replies st) as [|[s| |msg] rest]; reflexivity.
Qed.

Lemma python_int_decimal (i : Z) (st : vim_state) :
  python_int (decimal i) st = (st, Normal i).
Proof.
  unfold python_int, decimal. rewrite NilZero.isi.
  - rewrite DecimalZ.of_to. reflexivity.
  - destruct i; simpl; try discriminate.
    intros [= H]. exact (DecimalPos.Unsigned.to_uint_nonnil _ H).
  - destruct i; simpl; try discriminate.
    intros [= H]. exact (DecimalPos.Unsigned.to_uint_nonnil _ H).
Qed.

Section PromptFacts.

Variable json_dumps : list string -> string.
Variables (prompt : string) (options : list string).

Local Abbreviation expr := (inputlist_expr json_dumps prompt options).

Lemma inputlist_expr_is_prompt :
  String.eqb expr "inputsave()" = false /\ String.eqb expr "inputrestore()" = false.
Proof. split; reflexivity. Qed.

(** What [SelectFromList] does, by what the user does at the prompt. *)
Lemma SelectFromList_run (st : vim_state) :
  SelectFromList json_dumps prompt options st
  = let st2 := prompted expr (input_saved st) in
    match vim_replies st with
    | Answer s :: _ =>
        match NilZero.int_of_string s with
        | Some d =>
            let selection := Z.of_int d - 1 in
            if (selection <? 0) || (Z.of_nat (length options) <=? selection)
            then (st2, Normal None)
            else
              match options !! Z.to_nat selection with
              | Some v => (st2, Normal (Some v))
              | None => (input_restored st2, Normal None)
              end
        | None => (input_restored st2, Normal None)
        end
    | Interrupt :: _ => (st2, Normal None)
    | _ => (input_restored st2, Normal None)
    end.
Proof.
  destruct inputlist_expr_is_prompt as [H1 H2].
  unfold SelectFromList. unfold bind at 1. rewrite with_InputSave.
  unfold try_except, bind. fold expr.
  rewrite (vim_eval_prompt expr _ H1 H2).
  change (vim_replies (input_saved st)) with (vim_replies st).
  destruct (vim_replies st) as [|[s| |msg] rest]; simpl; try reflexivity.
  unfold python_int. destruct (NilZero.int_of_string s) as [d|]; simpl; [|reflexivity].
  destruct ((Z.of_int d - 1 <? 0) || (Z.of_nat (length options) <=? Z.of_int d - 1)) eqn:E;
    simpl; [reflexivity|].
  unfold list_getitem. apply orb_false_elim in E as [E1 E2].
  rewrite E1. cbv zeta iota. rewrite E1, E2. simpl.
  destruct (options !! Z.to_nat (Z.of_int d - 1)); reflexivity.
Qed.

(** The user enters the number [i]. *)
Lemma SelectFromList_number (i : Z) (rest : list reply) (st : vim_state) :
  vim_replies st = Answer (decimal i) :: rest ->
  SelectFromList json_dumps prompt options st
  = (prompted expr (input_saved st),
     Normal (if (i <? 1) || (Z.of_nat (length options) <? i) then None
             else options !! Z.to_nat (i - 1))).
Proof.
  intros Hr. rewrite SelectFromList_run, Hr. simpl.
  pose proof (python_int_decimal i st) as Hi. unfold python_int in Hi.
  destruct (NilZero.int_of_string (decimal i)) as [d|]; [|discriminate].
  injection Hi as ->.
  replace (i - 1 <? 0) with (i <? 1) by (destruct (Z.ltb_spec i 1), (Z.ltb_spec (i - 1) 0); lia).
  replace (Z.of_nat (length options) <=? i - 1) with (Z.of_nat (length options) <? i)
    by (destruct (Z.ltb_spec (Z.of_nat (length options)) i),
                 (Z.leb_spec (Z.of_nat (length options)) (i - 1)); lia).
  destruct ((i <? 1) || (Z.of_nat (length options) <? i)) eqn:E; [reflexivity|].
  apply orb_false_elim in E as [E1 E2].
  apply Z.ltb_ge in E1, E2.
  destruct (lookup_lt_is_Some_2 options (Z.to_nat (i - 1))) as [v Hv]; [lia|].
  rewrite Hv. reflexivity.
Qed.

Lemma SelectFromList_interrupt (rest : list reply) (st : vim_state) :
  vim_replies st = Interrupt :: rest ->
  SelectFromList json_dumps prompt options st
  = (prompted expr (input_saved st), Normal None).
Proof. intros Hr. rewrite SelectFromList_run, Hr. reflexivity. Qed.

End PromptFacts.

(** C4: when the user enters a number [i] at the prompt of
    [SelectFromList], the function returns [options[ i - 1 ]] if [i] lies
    in [1, len( options )], and [None], without raising, if [i] is 0 (or
    below) or above [len( options )]; when the user interrupts the prompt
    it returns [None] as well. *)
Theorem SelectFromList_selection (json_dumps : list string -> string)
    (prompt : string) (options : list string) (st : vim_state) (rest : list reply) :
  (forall i : Z,
     vim_replies st = Answer (decimal i) :: rest ->
     (1 <= i <= Z.of_nat (length options) ->
      exists v, options !! Z.to_nat (i - 1) = Some v /\
                (SelectFromList json_dumps prompt options st).2 = Normal (Some v)) /\
     (i < 1 \/ Z.of_nat (length options) < i ->
      (SelectFromList json_dumps prompt options st).2 = Normal None)) /\
  (vim_replies st = Interrupt :: rest ->
   (SelectFromList json_dumps prompt options st).2 = Normal None).
Proof.
  split.
  - intros i Hr. rewrite (SelectFromList_number _ _ _ i rest st Hr). simpl. split.
    + intros [Hlo Hhi].
      destruct (lookup_lt_is_Some_2 options (Z.to_nat (i - 1))) as [v Hv]; [lia|].
      exists v. split; [exact Hv|].
      replace (i <? 1) with false by (symmetry; apply Z.ltb_ge; lia).
      replace (Z.of_nat (length options) <? i) with false by (symmetry; apply Z.ltb_ge; lia).
      simpl. rewrite Hv. reflexivity.
    + intros [Hlo|Hhi].
      * replace (i <? 1) with true by (symmetry; apply Z.ltb_lt; lia). reflexivity.
      * replace (Z.of_nat (length options) <? i) with true by (symmetry; apply Z.ltb_lt; lia).
        rewrite orb_true_r. reflexivity.
  - intros Hr. rewrite (SelectFromList_interrupt _ _ _ rest st Hr). reflexivity.
Qed.

Lemma SelectFromList_selection_witness :
  (SelectFromList json_dumps_ascii "Pick" ["A"; "B"; "C"]
     (demo_state_replying [Answer "2"])).2 = Normal (Some "B") /\
  (SelectFromList json_dumps_ascii "Pick" ["A"; "B"; "C"]
     (demo_state_replying [Answer "0"])).2 = Normal None /\
  (SelectFromList json_dumps_ascii "Pick" ["A"; "B"; "C"]
     (demo_state_replying [Answer "4"])).2 = Normal None /\
  (SelectFromList json_dumps_ascii "Pick" ["A"; "B"; "C"]
     (demo_state_replying [Interrupt])).2 = Normal None.
Proof.
  split; [|split; [|split]].
  - destruct (SelectFromList_selection json_dumps_ascii "Pick" ["A"; "B"; "C"]
                (demo_state_replying [Answer "2"]) []) as [Hnum _].
    destruct (Hnum 2 eq_refl) as [Hin _].
    destruct Hin as (v & Hv & Hres); [simpl; lia|].
    injection Hv as <-. exact Hres.
  - destruct (SelectFromList_selection json_dumps_ascii "Pick" ["A"; "B"; "C"]
                (demo_state_replying [Answer "0"]) []) as [Hnum _].
    destruct (Hnum 0 eq_refl) as [_ Hout]. apply Hout. left. lia.
  - destruct (SelectFromList_selection json_dumps_ascii "Pick" ["A"; "B"; "C"]
                (demo_state_replying [Answer "4"]) []) as [Hnum _].
    destruct (Hnum 4 eq_refl) as [_ Hout]. apply Hout. right. simpl. lia.
  - destruct (SelectFromList_selection json_dumps_ascii "Pick" ["A"; "B"; "C"]
                (demo_state_replying [Interrupt]) []) as [_ Hint].
    exact (Hint eq_refl).
Defined.

(** [AskForInput], by what the user does at the prompt: an answer is
    returned with the typeahead still saved; an interrupt or a host error
    is followed by [inputrestore()] and the function returns [None]. *)
Lemma AskForInput_run (prompt : string) (st : vim_state) :
  AskForInput prompt st
  = let st2 := prompted ("input( '" +:+ Escape prompt +:+ "' )") (input_saved st) in
    match vim_replies st with
    | Answer s :: _ => (st2, Normal (Some s))
    | _ => (input_restored st2, Normal None)
    end.
Proof.
  unfold AskForInput. rewrite with_InputSave.
  rewrite vim_eval_prompt by reflexivity.
  change (vim_replies (input_saved st)) with (vim_replies st).
  destruct (vim_replies st) as [|[s| |msg] rest]; reflexivity.
Qed.

(** Whenever the user enters a number or interrupts, [SelectFromList]
    ends with one more typeahead saved than it started with, having
    evaluated [inputsave()] and the prompt and nothing else. *)
Lemma SelectFromList_no_restore (json_dumps : list string -> string)
    (prompt : string) (options : list string) (st : vim_state) (r : reply) (rest : list reply) :
  vim_replies st = r :: rest ->
  (r = Interrupt \/ exists i, r = Answer (decimal i)) ->
  let out := SelectFromList json_dumps prompt options st in
  vim_input_saves out.1 = S (vim_input_saves st) /\
  vim_evals out.1
  = (vim_evals st ++ ["inputsave()"; inputlist_expr json_dumps prompt options])%list.
Proof.
  intros Hr [->|[i ->]] out; subst out.
  - rewrite (SelectFromList_interrupt _ _ _ rest st Hr). simpl.
    rewrite <- app_assoc. split; reflexivity.
  - rewrite (SelectFromList_number _ _ _ i rest st Hr). simpl.
    rewrite <- app_assoc. split; reflexivity.
Qed.

(** C3, at a run that breaks it: the user picks entry 2 of three at the
    prompt of [SelectFromList], and answers the prompt of [AskForInput].
    Both calls return the answer, and both end with the typeahead saved by
    [inputsave()] still saved: [inputrestore()] is not evaluated.  The
    same holds when the user interrupts [SelectFromList].  Only an
    exception reaching [InputSave], as an interrupt of [AskForInput], is
    followed by [inputrestore()]. *)
Theorem InputSave_not_restored_on_return :
  let pick := SelectFromList json_dumps_ascii "Pick" ["A"; "B"; "C"] in
  ((pick demo_state).2 = Normal (Some "B") /\
   vim_evals (pick demo_state).1
   = ["inputsave()"; inputlist_expr json_dumps_ascii "Pick" ["A"; "B"; "C"]] /\
   vim_input_saves demo_state = 0%nat /\
   vim_input_saves (pick demo_state).1 = 1%nat) /\
  ((pick (demo_state_replying [Interrupt])).2 = Normal None /\
   ("inputrestore()" ∉ vim_evals (pick (demo_state_replying [Interrupt])).1) /\
   vim_input_saves (pick (demo_state_replying [Interrupt])).1 = 1%nat) /\
  ((AskForInput "Name" (demo_state_replying [Answer "x"])).2 = Normal (Some "x") /\
   ("inputrestore()" ∉ vim_evals (AskForInput "Name" (demo_state_replying [Answer "x"])).1) /\
   vim_input_saves (AskForInput "Name" (demo_state_replying [Answer "x"])).1 = 1%nat) /\
  ((AskForInput "Name" (demo_state_replying [Interrupt])).2 = Normal None /\
   vim_evals (AskForInput "Name" (demo_state_replying [Interrupt])).1
   = ["inputsave()"; "input( 'Name' )"; "inputrestore()"] /\
   vim_input_saves (AskForInput "Name" (demo_state_replying [Interrupt])).1 = 0%nat).
Proof.
  assert (Hnotin : forall a b : string,
             a <> "inputrestore()" -> b <> "inputrestore()" ->
             "inputrestore()" ∉ [a; b]).
  { intros a b Ha Hb Hin. apply elem_of_cons in Hin as [Hin|Hin]; [congruence|].
    apply list_elem_of_singleton in Hin. congruence. }
  cbv zeta. repeat split; try reflexivity; apply Hnotin; discriminate.
Qed.

(** ** PathToConfigFile *)

Section ConfigFileFacts.

Variable getcwd : string.
Variable path_join : string -> string -> string.
Variable path_exists : string -> bool.
Variable path_dirname : string -> string.
Variable file_name : string.

Local Abbreviation up := (ancestor path_dirname).
Local Abbreviation here p := (path_exists (path_join p file_name)).
Local Abbreviation walk fuel p :=
  (PathToConfigFile_from path_join path_exists path_dirname fuel file_name p).

Lemma ancestor_root (k : nat) (p : string) :
  path_dirname p = p -> up k p = p.
Proof.
  intros Hroot. induction k as [|k IH]; [reflexivity|].
  simpl. rewrite Hroot. exact IH.
Qed.

(** The loop stops at the first directory that holds the file. *)
Lemma walk_found (k : nat) : forall (p : string) (fuel : nat),
  (forall j, (j < k)%nat -> here (up j p) = false) ->
  here (up k p) = true ->
  (k < fuel)%nat ->
  walk fuel p = Some (Some (path_join (up k p) file_name)).
Proof.
  induction k as [|k IH]; intros p fuel Hbefore Hat Hfuel.
  - destruct fuel as [|fuel]; [lia|]. simpl in *.
    rewrite Hat. reflexivity.
  - destruct fuel as [|fuel]; [lia|].
    assert (H0 : here p = false) by (apply (Hbefore 0%nat); lia).
    simpl. rewrite H0.
    destruct (String.eqb_spec (path_dirname p) p) as [Hroot|Hup].
    + exfalso. rewrite (ancestor_root (S k) p Hroot) in Hat.
      congruence.
    + apply IH; [|exact Hat|lia].
      intros j Hj. apply (Hbefore (S j)). lia.
Qed.

(** The loop gives [None] when it reaches a directory that is its own
    parent without having seen the file. *)
Lemma walk_not_found (n : nat) : forall (p : string) (fuel : nat),
  path_dirname (up n p) = up n p ->
  (forall j, (j <= n)%nat -> here (up j p) = false) ->
  (n < fuel)%nat ->
  walk fuel p = Some None.
Proof.
  induction n as [|n IH]; intros p fuel Hroot Hnone Hfuel;
    (destruct fuel as [|fuel]; [lia|]);
    assert (H0 : here p = false) by (apply (Hnone 0%nat); lia);
    simpl; rewrite H0.
  - simpl in Hroot. rewrite Hroot, String.eqb_refl. reflexivity.
  - destruct (String.eqb_spec (path_dirname p) p) as [Hr|Hup]; [reflexivity|].
    apply IH; [exact Hroot| |lia].
    intros j Hj. apply (Hnone (S j)). lia.
Qed.

(** What a result of the loop says about the directories above [p]. *)
Lemma walk_sound (fuel : nat) : forall (p : string) (r : option string),
  walk fuel p = Some r ->
  exists k, (k < fuel)%nat /\
    (forall j, (j < k)%nat ->
       here (up j p) = false /\ path_dirname (up j p) <> up j p) /\
    match r with
    | Some c => c = path_join (up k p) file_name /\ path_exists c = true
    | None => here (up k p) = false /\ path_dirname (up k p) = up k p
    end.
Proof.
  induction fuel as [|fuel IH]; intros p r Hw; [discriminate|].
  simpl in Hw.
  destruct (path_exists (path_join p file_name)) eqn:Hex.
  - injection Hw as <-. exists 0%nat. split; [lia|]. split; [intros j Hj; lia|].
    split; [reflexivity|exact Hex].
  - destruct (String.eqb_spec (path_dirname p) p) as [Hroot|Hup].
    + injection Hw as <-. exists 0%nat. split; [lia|]. split; [intros j Hj; lia|].
      split; [exact Hex|exact Hroot].
    + destruct (IH _ _ Hw) as (k & Hk & Hbefore & Hr).
      exists (S k). split; [lia|]. split.
      * intros [|j] Hj; [split; [exact Hex|exact Hup]|].
        apply (Hbefore j). lia.
      * exact Hr.
Qed.

Lemma walk_terminates (n : nat) (p : string) (fuel : nat) :
  path_dirname (up n p) = up n p ->
  (n < fuel)%nat ->
  exists r, walk fuel p = Some r.
Proof.
  revert p fuel. induction n as [|n IH]; intros p fuel Hroot Hfuel;
    (destruct fuel as [|fuel]; [lia|]); simpl;
    (destruct (path_exists (path_join p file_name)); [eexists; reflexivity|]).
  - simpl in Hroot. rewrite Hroot, String.eqb_refl.
    eexists; reflexivity.
  - destruct (String.eqb_spec (path_dirname p) p) as [Hr|Hup]; [eexists; reflexivity|].
    apply IH; [exact Hroot|lia].
Qed.

Lemma walk_more_fuel (fuel : nat) : forall (p : string) (r : option string) (fuel' : nat),
  walk fuel p = Some r -> (fuel <= fuel')%nat -> walk fuel' p = Some r.
Proof.
  induction fuel as [|fuel IH]; intros p r fuel' Hw Hle; [discriminate|].
  destruct fuel' as [|fuel']; [lia|].
  simpl in *.
  destruct (path_exists (path_join p file_name)); [exact Hw|].
  destruct (String.eqb (path_dirname p) p); [exact Hw|].
  apply (IH _ _ _ Hw). lia.
Qed.

End ConfigFileFacts.

(** C6: [PathToConfigFile( file_name )] starts at [os.getcwd()] and climbs
    by [os.path.dirname].  If the [k]-th directory up is the nearest one
    (the working directory being the 0-th) whose joined path exists, the
    call returns that joined path; if the walk reaches a directory that is
    its own parent without any of the joined paths up to there existing,
    the call returns [None].  Conversely a returned path is the joined path
    of the nearest such directory, and [None] is returned only at a
    directory that is its own parent, no joined path on the way
    existing.  The result is a value in all cases, never an exception. *)
Theorem PathToConfigFile_nearest (getcwd : string)
    (path_join : string -> string -> string) (path_exists : string -> bool)
    (path_dirname : string -> string) (file_name : string) :
  let up k := ancestor path_dirname k getcwd in
  let here k := path_exists (path_join (up k) file_name) in
  let run fuel := PathToConfigFile getcwd path_join path_exists path_dirname fuel file_name in
  (forall k : nat,
     (forall j, (j < k)%nat -> here j = false) -> here k = true ->
     forall fuel, (k < fuel)%nat -> run fuel = Some (Some (path_join (up k) file_name))) /\
  (forall n : nat,
     path_dirname (up n) = up n -> (forall j, (j <= n)%nat -> here j = false) ->
     forall fuel, (n < fuel)%nat -> run fuel = Some None) /\
  (forall fuel c,
     run fuel = Some (Some c) ->
     exists k, c = path_join (up k) file_name /\ here k = true /\
               forall j, (j < k)%nat -> here j = false) /\
  (forall fuel,
     run fuel = Some None ->
     exists n, path_dirname (up n) = up n /\ forall j, (j <= n)%nat -> here j = false).
Proof.
  intros up here run. repeat split.
  - intros k Hbefore Hat fuel Hfuel. apply walk_found; assumption.
  - intros n Hroot Hnone fuel Hfuel. apply (walk_not_found _ _ _ _ n); assumption.
  - intros fuel c Hrun. apply walk_sound in Hrun as (k & _ & Hbefore & -> & Hex).
    exists k. split; [reflexivity|]. split; [exact Hex|].
    intros j Hj. apply (Hbefore j Hj).
  - intros fuel Hrun. apply walk_sound in Hrun as (n & _ & Hbefore & Hhere & Hroot).
    exists n. split; [exact Hroot|].
    intros j Hj. destruct (decide (j = n)) as [->|Hne]; [exact Hhere|].
    apply (Hbefore j). lia.
Qed.

(** C10: if climbing from the working directory by [os.path.dirname]
    reaches, after [n] steps, a directory that is its own parent, the loop
    of [PathToConfigFile] returns within [n + 1] iterations: with any
    bound above [n] the call gives a result, a path or [None], and the
    same one for every such bound. *)
Theorem PathToConfigFile_terminates (getcwd : string)
    (path_join : string -> string -> string) (path_exists : string -> bool)
    (path_dirname : string -> string) (file_name : string) (n : nat) :
  path_dirname (ancestor path_dirname n getcwd) = ancestor path_dirname n getcwd ->
  exists r : option string,
    forall fuel, (n < fuel)%nat ->
      PathToConfigFile getcwd path_join path_exists path_dirname fuel file_name = Some r.
Proof.
  intros Hroot.
  destruct (walk_terminates path_join path_exists path_dirname file_name
              n getcwd (S n) Hroot) as [r Hr]; [lia|].
  exists r. intros fuel Hfuel.
  apply (walk_more_fuel _ _ _ _ (S n)); [exact Hr|lia].
Qed.

Lemma PathToConfigFile_nearest_witness :
  PathToConfigFile "/a/b/c" Posix.join demo_exists Posix.dirname 5 ".vimspector.json"
  = Some (Some "/a/.vimspector.json") /\
  PathToConfigFile "/a/b/c" Posix.join (fun _ => false) Posix.dirname 5 ".vimspector.json"
  = Some None.
Proof.
  split.
  - pose proof (PathToConfigFile_nearest "/a/b/c" Posix.join demo_exists Posix.dirname
                  ".vimspector.json") as H.
    cbv zeta in H. destruct H as (Hfound & _).
    apply (Hfound 2%nat).
    + intros j Hj. destruct j as [|[|j]]; [reflexivity|reflexivity|lia].
    + reflexivity.
    + lia.
  - pose proof (PathToConfigFile_nearest "/a/b/c" Posix.join (fun _ => false) Posix.dirname
                  ".vimspector.json") as H.
    cbv zeta in H. destruct H as (_ & Hnone & _).
    apply (Hnone 3%nat).
    + reflexivity.
    + intros j Hj. reflexivity.
    + lia.
Defined.

Lemma PathToConfigFile_terminates_witness :
  Posix.dirname (ancestor Posix.dirname 3 "/a/b/c") = ancestor Posix.dirname 3 "/a/b/c" /\
  exists r : option string,
    forall fuel, (3 < fuel)%nat ->
      PathToConfigFile "/a/b/c" Posix.join demo_exists Posix.dirname fuel ".vimspector.json"
      = Some r.
Proof.
  assert (Hroot : Posix.dirname (ancestor Posix.dirname 3 "/a/b/c")
                  = ancestor Posix.dirname 3 "/a/b/c") by reflexivity.
  split; [exact Hroot|].
  exact (PathToConfigFile_terminates "/a/b/c" Posix.join demo_exists Posix.dirname
           ".vimspector.json" 3 Hroot).
Defined.

(** *** On a POSIX host the walk always ends *)

Module PosixFacts.
Import Posix.

Lemma head_shrinks (p : string) :
  head p = p \/ (String.length (head p) < String.length p)%nat.
Proof.
  induction p as [|c p IH]; [left; reflexivity|].
  simpl. destruct (has_slash p).
  - destruct IH as [->|IH]; [left; reflexivity|right; simpl; lia].
  - destruct (Ascii.eqb c slash).
    + destruct p; [left; reflexivity|right; simpl; lia].
    + right. simpl. lia.
Qed.

Lemma head_nonempty (p : string) :
  has_slash p = true -> head p <> EmptyString.
Proof.
  destruct p as [|c p]; [discriminate|]. simpl.
  destruct (has_slash p); [discriminate|].
  rewrite orb_false_r. intros ->. discriminate.
Qed.

Lemma rstrip_head_shrinks (p : string) :
  head p <> EmptyString ->
  (String.length (rstrip_slash (head p)) < String.length (head p))%nat.
Proof.
  induction p as [|c p IH]; [intros H; exfalso; apply H; reflexivity|].
  simpl. destruct (has_slash p) eqn:Hs.
  - intros _. specialize (IH (head_nonempty p Hs)). simpl.
    destruct (rstrip_slash (head p)) as [|c' r].
    + destruct (Ascii.eqb c slash); simpl in *; lia.
    + simpl in *. lia.
  - destruct (Ascii.eqb c slash) eqn:Ec; [|intros H; congruence].
    intros _. simpl. rewrite Ec. simpl. lia.
Qed.

Lemma dirname_shrinks (p : string) :
  dirname p = p \/ (String.length (dirname p) < String.length p)%nat.
Proof.
  unfold dirname.
  destruct (negb (String.eqb (head p) EmptyString) && negb (all_slash (head p))) eqn:E.
  - right. apply andb_prop in E as [E _]. apply negb_true_iff in E.
    apply String.eqb_neq in E. pose proof (rstrip_head_shrinks p E).
    destruct (head_shrinks p) as [Hh|Hh]; [rewrite Hh in *|]; lia.
  - apply head_shrinks.
Qed.

(** Climbing from [p] reaches, within as many steps as [p] has
    characters, a directory that is its own parent. *)
Lemma dirname_reaches_root (m : nat) : forall p : string,
  (String.length p <= m)%nat ->
  exists n, (n <= m)%nat /\
    dirname (ancestor dirname n p) = ancestor dirname n p.
Proof.
  induction m as [|m IH]; intros p Hlen.
  - destruct p; [|simpl in Hlen; lia]. exists 0%nat. split; [lia|reflexivity].
  - destruct (dirname_shrinks p) as [Hroot|Hlt].
    + exists 0%nat. split; [lia|exact Hroot].
    + destruct (IH (dirname p)) as (n & Hn & Hr); [lia|].
      exists (S n). split; [lia|exact Hr].
Qed.

(** So the lookup returns, whatever the working directory and the file
    system: a bound above the length of the working directory is
    enough. *)
Lemma PathToConfigFile_total (getcwd : string) (path_exists : string -> bool)
    (file_name : string) :
  exists r : option string,
    forall fuel, (String.length getcwd < fuel)%nat ->
      PathToConfigFile getcwd join path_exists dirname fuel file_name = Some r.
Proof.
  destruct (dirname_reaches_root (String.length getcwd) getcwd) as (n & Hn & Hroot); [lia|].
  destruct (walk_terminates join path_exists dirname file_name n getcwd (S n) Hroot)
    as [r Hr]; [lia|].
  exists r. intros fuel Hfuel.
  apply (walk_more_fuel _ _ _ _ (S n)); [exact Hr|lia].
Qed.

End PosixFacts.

(** * Further properties *)

(** ** SetUpScratchBuffer and SetUpHiddenBuffer *)

(** Equality of option maps built by assignments to literal keys. *)
Ltac option_map_eq :=
  apply map_eq; intros ?;
  repeat (rewrite lookup_insert; case_decide; subst; try reflexivity; try congruence).

Lemma SetUpScratchBuffer_buffer (buf : nat) (name : string) (st : vim_state) :
  vim_buffers (SetUpScratchBuffer buf name st).1 buf
  = Buffer (<["bufhidden" := VStr "wipe"]> (<["buflisted" := VBool false]>
           (<["readonly" := VBool true]> (<["modified" := VBool false]>
           (<["modifiable" := VBool false]> (<["swapfile" := VBool false]>
           (<["buftype" := VStr "nofile"]> (buf_options (vim_buffers st buf)))))))))
           name (buf_lines (vim_buffers st buf)).
Proof.
  unfold SetUpScratchBuffer, bind, buf_options_setitem, buf_set_name. simpl.
  rewrite !fn_lookup_insert. reflexivity.
Qed.

Lemma SetUpHiddenBuffer_buffer (buf : nat) (name : string) (st : vim_state) :
  vim_buffers (SetUpHiddenBuffer buf name st).1 buf
  = Buffer (<["bufhidden" := VStr "hide"]> (<["buflisted" := VBool false]>
           (<["readonly" := VBool true]> (<["modified" := VBool false]>
           (<["modifiable" := VBool false]> (<["swapfile" := VBool false]>
           (<["buftype" := VStr "nofile"]> (buf_options (vim_buffers st buf)))))))))
           name (buf_lines (vim_buffers st buf)).
Proof.
  unfold SetUpHiddenBuffer, bind, buf_options_setitem, buf_set_name. simpl.
  rewrite !fn_lookup_insert. reflexivity.
Qed.

Lemma SetUpScratchBuffer_other (buf : nat) (name : string) (st : vim_state) (b : nat) :
  b <> buf -> vim_buffers (SetUpScratchBuffer buf name st).1 b = vim_buffers st b.
Proof.
  intros Hne. unfold SetUpScratchBuffer, bind, buf_options_setitem, buf_set_name. simpl.
  rewrite !fn_lookup_insert_ne by congruence. reflexivity.
Qed.

Lemma SetUpHiddenBuffer_other (buf : nat) (name : string) (st : vim_state) (b : nat) :
  b <> buf -> vim_buffers (SetUpHiddenBuffer buf name st).1 b = vim_buffers st b.
Proof.
  intros Hne. unfold SetUpHiddenBuffer, bind, buf_options_setitem, buf_set_name. simpl.
  rewrite !fn_lookup_insert_ne by congruence. reflexivity.
Qed.

(** X1: the two set-up functions give the same buffer but for one option:
    [bufhidden] is [wipe] after [SetUpScratchBuffer] and [hide] after
    [SetUpHiddenBuffer]; every other option of the buffer, its name and its
    lines agree, as does every other buffer and the rest of the editor
    state, and neither call raises. *)
Theorem SetUp_buffers_differ_in_bufhidden (buf : nat) (name : string) (st : vim_state) :
  let scratch := SetUpScratchBuffer buf name st in
  let hidden := SetUpHiddenBuffer buf name st in
  (scratch.2 = Normal tt /\ hidden.2 = Normal tt) /\
  (buf_option scratch.1 buf "bufhidden" = Some (VStr "wipe") /\
   buf_option hidden.1 buf "bufhidden" = Some (VStr "hide")) /\
  (forall opt : string,
     opt <> "bufhidden" -> buf_option hidden.1 buf opt = buf_option scratch.1 buf opt) /\
  (buf_name (vim_buffers hidden.1 buf) = name /\
   buf_name (vim_buffers scratch.1 buf) = name /\
   buf_lines (vim_buffers hidden.1 buf) = buf_lines (vim_buffers scratch.1 buf)) /\
  (forall b : nat, b <> buf -> vim_buffers hidden.1 b = vim_buffers scratch.1 b) /\
  same_outside_buffers scratch.1 hidden.1.
Proof.
  intros scratch hidden. subst scratch hidden. unfold buf_option.
  split; [split; reflexivity|].
  split; [rewrite SetUpScratchBuffer_buffer, SetUpHiddenBuffer_buffer;
          split; apply lookup_insert_eq|].
  split; [intros opt Hne; rewrite SetUpScratchBuffer_buffer, SetUpHiddenBuffer_buffer;
          simpl; rewrite !(lookup_insert_ne _ "bufhidden") by congruence; reflexivity|].
  split; [rewrite SetUpScratchBuffer_buffer, SetUpHiddenBuffer_buffer; repeat split|].
  split; [|repeat split].
  intros b Hne. rewrite SetUpScratchBuffer_other, SetUpHiddenBuffer_other by exact Hne.
  reflexivity.
Qed.

(** X2: setting a buffer up again overrides what an earlier set-up call
    did: after [SetUpScratchBuffer( buf, name )] every buffer is as if the
    call had been made on the state before an earlier call of either
    function, whatever name that call gave; likewise for
    [SetUpHiddenBuffer].  In particular each function is idempotent. *)
Theorem SetUp_buffer_again (buf : nat) (name name' : string) (st : vim_state) (b : nat) :
  (vim_buffers (SetUpScratchBuffer buf name (SetUpScratchBuffer buf name' st).1).1 b
   = vim_buffers (SetUpScratchBuffer buf name st).1 b /\
   vim_buffers (SetUpScratchBuffer buf name (SetUpHiddenBuffer buf name' st).1).1 b
   = vim_buffers (SetUpScratchBuffer buf name st).1 b) /\
  (vim_buffers (SetUpHiddenBuffer buf name (SetUpHiddenBuffer buf name' st).1).1 b
   = vim_buffers (SetUpHiddenBuffer buf name st).1 b /\
   vim_buffers (SetUpHiddenBuffer buf name (SetUpScratchBuffer buf name' st).1).1 b
   = vim_buffers (SetUpHiddenBuffer buf name st).1 b).
Proof.
  destruct (decide (b = buf)) as [->|Hne].
  - rewrite !SetUpScratchBuffer_buffer, !SetUpHiddenBuffer_buffer,
            !SetUpScratchBuffer_buffer. simpl.
    repeat split; f_equal; option_map_eq.
  - rewrite !SetUpScratchBuffer_other, !SetUpHiddenBuffer_other,
            ?SetUpScratchBuffer_other by exact Hne.
    repeat split; reflexivity.
Qed.

(** X3: on a buffer that is not modifiable and read-only on entry, as both
    set-up functions leave it, [with ModifiableScratchBuffer( buf )] with a
    body that hands the buffer back as it received it ends with the buffer
    exactly as it was before the statement: options, name and lines. *)
Theorem ModifiableScratchBuffer_round_trip {A} (buf : nat) (body : M A) (st : vim_state) :
  buf_option st buf "modifiable" = Some (VBool false) ->
  buf_option st buf "readonly" = Some (VBool true) ->
  vim_buffers (body (cm_enter (ModifiableScratchBuffer buf) st).1).1 buf
  = vim_buffers (cm_enter (ModifiableScratchBuffer buf) st).1 buf ->
  vim_buffers (with_ (ModifiableScratchBuffer buf) body st).1 buf = vim_buffers st buf.
Proof.
  intros Hmod Hro Hbody. unfold ModifiableScratchBuffer in *.
  erewrite with_finally_exit; [|reflexivity|intros st'; eexists; reflexivity].
  simpl in *. rewrite !fn_lookup_insert in *. simpl in *. rewrite Hbody. simpl.
  unfold buf_option in *. destruct (vim_buffers st buf) as [o n l]. simpl in *.
  unfold set_buf_options. simpl. f_equal. option_map_eq.
Qed.

Lemma ModifiableScratchBuffer_round_trip_witness :
  let st := (SetUpScratchBuffer 2 "vimspector.Console" demo_state).1 in
  let body := vim_command "normal G" in
  (buf_option st 2 "modifiable" = Some (VBool false) /\
   buf_option st 2 "readonly" = Some (VBool true) /\
   vim_buffers (body (cm_enter (ModifiableScratchBuffer 2) st).1).1 2%nat
   = vim_buffers (cm_enter (ModifiableScratchBuffer 2) st).1 2%nat) /\
  vim_buffers (with_ (ModifiableScratchBuffer 2) body st).1 2%nat = vim_buffers st 2%nat.
Proof.
  cbv zeta.
  assert (H1 : buf_option (SetUpScratchBuffer 2 "vimspector.Console" demo_state).1 2
                 "modifiable" = Some (VBool false)) by reflexivity.
  assert (H2 : buf_option (SetUpScratchBuffer 2 "vimspector.Console" demo_state).1 2
                 "readonly" = Some (VBool true)) by reflexivity.
  assert (H3 : vim_buffers
                 (vim_command "normal G"
                    (cm_enter (ModifiableScratchBuffer 2)
                       (SetUpScratchBuffer 2 "vimspector.Console" demo_state).1).1).1 2%nat
               = vim_buffers
                   (cm_enter (ModifiableScratchBuffer 2)
                      (SetUpScratchBuffer 2 "vimspector.Console" demo_state).1).1 2%nat)
    by reflexivity.
  split; [split; [exact H1|split; [exact H2|exact H3]]|].
  exact (ModifiableScratchBuffer_round_trip 2 (vim_command "normal G")
           (SetUpScratchBuffer 2 "vimspector.Console" demo_state).1 H1 H2 H3).
Defined.

(** ** Windows and cursor *)

Lemma with_RestorCurrentWindow {A} (body : M A) (st : vim_state) :
  with_ RestorCurrentWindow body st
  = (set_vim_current_window (vim_current_window st) (body st).1, propagated (body st).2).
Proof.
  unfold RestorCurrentWindow.
  erewrite with_finally_exit with (l := vim_current_window st) (st1 := st);
    [reflexivity|reflexivity|].
  intros st'. eexists. reflexivity.
Qed.

Lemma with_RestoreCurrentBuffer {A} (window : nat) (body : M A) (st : vim_state) :
  with_ (RestoreCurrentBuffer window) body st
  = (set_vim_windows
       (<[window := set_win_buffer (win_buffer (vim_windows st window))
                      (vim_windows (body st).1 window)]> (vim_windows (body st).1))
       (body st).1,
     propagated (body st).2).
Proof.
  unfold RestoreCurrentBuffer.
  erewrite with_finally_exit with (l := win_buffer (vim_windows st window)) (st1 := st).
  - rewrite RestoreCurrentBuffer_finally. reflexivity.
  - reflexivity.
  - intros st'. eexists. apply RestoreCurrentBuffer_finally.
Qed.

Lemma with_RestoreCursorPosition {A} (body : M A) (st : vim_state) :
  with_ RestoreCursorPosition body st
  = (set_vim_windows
       (<[vim_current_window (body st).1 :=
            set_win_cursor
              (Z.min (win_cursor (vim_windows st (vim_current_window st))).1
                     (current_line_count (body st).1),
               (win_cursor (vim_windows st (vim_current_window st))).2)
              (vim_windows (body st).1 (vim_current_window (body st).1))]>
          (vim_windows (body st).1))
       (body st).1,
     propagated (body st).2).
Proof.
  unfold RestoreCursorPosition.
  erewrite with_finally_exit
    with (l := win_cursor (vim_windows st (vim_current_window st))) (st1 := st);
    [reflexivity|reflexivity|].
  intros st'. eexists. reflexivity.
Qed.

(** X4: [with RestorCurrentWindow()] ends, whether the body returns or
    raises, with the window current on entry current again; nothing else
    of what the body left is changed, and the exit of the body is the exit
    of the statement. *)
Theorem RestorCurrentWindow_restores {A} (body : M A) (st : vim_state) :
  let out := with_ RestorCurrentWindow body st in
  vim_current_window out.1 = vim_current_window st /\
  out.1 = set_vim_current_window (vim_current_window st) (body st).1 /\
  out.2 = propagated (body st).2.
Proof.
  intros out. subst out. rewrite with_RestorCurrentWindow. repeat split.
Qed.

(** X5: nested, [with RestorCurrentWindow(): with RestoreCurrentBuffer(
    window ): body] gives back both: whatever the body does and however it
    ends, afterwards the window current on entry is current and [window]
    shows the buffer it showed on entry; the exit of the body is the exit
    of the outer statement. *)
Theorem RestorCurrentWindow_RestoreCurrentBuffer_nested {A} (window : nat)
    (body : M A) (st : vim_state) :
  let out := with_ RestorCurrentWindow (with_ (RestoreCurrentBuffer window) body) st in
  vim_current_window out.1 = vim_current_window st /\
  win_buffer (vim_windows out.1 window) = win_buffer (vim_windows st window) /\
  out.2 = propagated (propagated (body st).2).
Proof.
  intros out. subst out.
  rewrite with_RestorCurrentWindow, with_RestoreCurrentBuffer. simpl.
  rewrite fn_lookup_insert. repeat split.
Qed.

(** X6: when the body leaves the current window current and the buffer
    shown there with at least as many lines as the recorded cursor line,
    [with RestoreCursorPosition()] ends with the cursor of that window
    exactly where it was on entry. *)
Theorem RestoreCursorPosition_round_trip {A} (body : M A) (st : vim_state) :
  vim_current_window (body st).1 = vim_current_window st ->
  (win_cursor (vim_windows st (vim_current_window st))).1 <= current_line_count (body st).1 ->
  win_cursor (vim_windows (with_ RestoreCursorPosition body st).1 (vim_current_window st))
  = win_cursor (vim_windows st (vim_current_window st)).
Proof.
  intros Hwin Hlines. rewrite with_RestoreCursorPosition. simpl.
  rewrite Hwin, fn_lookup_insert. simpl.
  rewrite Z.min_l by exact Hlines.
  destruct (win_cursor (vim_windows st (vim_current_window st))); reflexivity.
Qed.

Lemma RestoreCursorPosition_round_trip_witness :
  let body := set_current_window_cursor (1, 0) in
  (vim_current_window (body demo_state).1 = vim_current_window demo_state /\
   (win_cursor (vim_windows demo_state (vim_current_window demo_state))).1
   <= current_line_count (body demo_state).1) /\
  win_cursor (vim_windows (with_ RestoreCursorPosition body demo_state).1
                (vim_current_window demo_state)) = (3, 4).
Proof.
  cbv zeta.
  assert (H1 : vim_current_window (set_current_window_cursor (1, 0) demo_state).1
               = vim_current_window demo_state) by reflexivity.
  assert (H2 : (win_cursor (vim_windows demo_state (vim_current_window demo_state))).1
               <= current_line_count (set_current_window_cursor (1, 0) demo_state).1)
    by (vm_compute; discriminate).
  split; [split; [exact H1|exact H2]|].
  exact (RestoreCursorPosition_round_trip (set_current_window_cursor (1, 0)) demo_state H1 H2).
Defined.

(** X7: when the body ends with another window current than on entry,
    [with RestoreCursorPosition()] does not give the window of entry its
    cursor back: that cursor stays where the body left it, and the
    recorded position, clamped, goes to the window now current. *)
Theorem RestoreCursorPosition_other_window {A} (body : M A) (st : vim_state) :
  vim_current_window (body st).1 <> vim_current_window st ->
  let out := with_ RestoreCursorPosition body st in
  win_cursor (vim_windows out.1 (vim_current_window st))
  = win_cursor (vim_windows (body st).1 (vim_current_window st)) /\
  win_cursor (vim_windows out.1 (vim_current_window (body st).1))
  = (Z.min (win_cursor (vim_windows st (vim_current_window st))).1
           (current_line_count (body st).1),
     (win_cursor (vim_windows st (vim_current_window st))).2).
Proof.
  intros Hwin out. subst out. rewrite with_RestoreCursorPosition. simpl.
  rewrite fn_lookup_insert_ne by exact Hwin. rewrite fn_lookup_insert.
  split; reflexivity.
Qed.

Lemma RestoreCursorPosition_other_window_witness :
  let body := set_current_window_cursor (1, 0) ;;; set_current_window 1 in
  vim_current_window (body demo_state).1 <> vim_current_window demo_state /\
  win_cursor (vim_windows (with_ RestoreCursorPosition body demo_state).1 0%nat) = (1, 0) /\
  win_cursor (vim_windows (with_ RestoreCursorPosition body demo_state).1 1%nat) = (3, 4).
Proof.
  cbv zeta.
  assert (H : vim_current_window
                ((set_current_window_cursor (1, 0) ;;; set_current_window 1) demo_state).1
              <> vim_current_window demo_state) by (simpl; discriminate).
  split; [exact H|].
  exact (RestoreCursorPosition_other_window
           (set_current_window_cursor (1, 0) ;;; set_current_window 1) demo_state H).
Defined.

(** ** Editor options *)

Lemma with_TemporaryVimOption {A} (opt : string) (value old_value : pyvalue)
    (body : M A) (st : vim_state) :
  vim_options st !! opt = Some old_value ->
  with_ (TemporaryVimOption opt value) body st
  = (set_vim_options
       (<[opt := old_value]>
          (vim_options (body (set_vim_options (<[opt := value]> (vim_options st)) st)).1))
       (body (set_vim_options (<[opt := value]> (vim_options st)) st)).1,
     propagated (body (set_vim_options (<[opt := value]> (vim_options st)) st)).2).
Proof.
  intros Hold. unfold TemporaryVimOption.
  erewrite with_finally_exit
    with (l := old_value) (st1 := set_vim_options (<[opt := value]> (vim_options st)) st).
  - reflexivity.
  - unfold bind, vim_options_getitem, vim_options_setitem, ret. rewrite Hold. reflexivity.
  - intros st'. eexists. reflexivity.
Qed.

(** X8: for an option the host does not have, [with TemporaryVimOption(
    opt, value )] raises [KeyError] from the lookup of the old value: the
    body is not run (whatever the body, the editor state is untouched), and
    the option is not created. *)
Theorem TemporaryVimOption_missing_option {A} (opt : string) (value : pyvalue)
    (body : M A) (st : vim_state) :
  vim_options st !! opt = None ->
  let out := with_ (TemporaryVimOption opt value) body st in
  out.2 = Raised (KeyError opt) /\
  out.1 = st /\
  vim_options out.1 !! opt = None.
Proof.
  intros Hnone out. subst out.
  rewrite TemporaryVimOption_unknown_option by exact Hnone. simpl.
  repeat split. exact Hnone.
Qed.

Lemma TemporaryVimOption_missing_option_witness :
  vim_options demo_state !! "nosuchoption" = None /\
  with_ (TemporaryVimOption "nosuchoption" (VInt 1)) (vim_command "redraw") demo_state
  = (demo_state, Raised (KeyError "nosuchoption")).
Proof.
  assert (H : vim_options demo_state !! "nosuchoption" = None) by reflexivity.
  split; [exact H|].
  destruct (TemporaryVimOption_missing_option "nosuchoption" (VInt 1)
              (vim_command "redraw") demo_state H) as (Hexit & Hstate & _).
  destruct (with_ (TemporaryVimOption "nosuchoption" (VInt 1)) (vim_command "redraw")
              demo_state) as [st' r].
  simpl in Hexit, Hstate. rewrite Hexit, Hstate. reflexivity.
Defined.

(** X9: when the body leaves the editor options as it found them, [with
    TemporaryVimOption( opt, value )] ends with the whole option mapping
    equal to the one before the statement. *)
Theorem TemporaryVimOption_round_trip {A} (opt : string) (value old_value : pyvalue)
    (body : M A) (st : vim_state) :
  vim_options st !! opt = Some old_value ->
  vim_options (body (set_vim_options (<[opt := value]> (vim_options st)) st)).1
  = <[opt := value]> (vim_options st) ->
  vim_options (with_ (TemporaryVimOption opt value) body st).1 = vim_options st.
Proof.
  intros Hold Hbody. rewrite (with_TemporaryVimOption _ _ _ _ _ Hold). simpl.
  rewrite Hbody, insert_insert_eq. apply insert_id. exact Hold.
Qed.

Lemma TemporaryVimOption_round_trip_witness :
  (vim_options demo_state !! "more" = Some (VBool true) /\
   vim_options (vim_command "redraw"
                  (set_vim_options (<["more" := VBool false]> (vim_options demo_state))
                     demo_state)).1
   = <["more" := VBool false]> (vim_options demo_state)) /\
  vim_options (with_ (TemporaryVimOption "more" (VBool false)) (vim_command "redraw")
                 demo_state).1 = vim_options demo_state.
Proof.
  assert (H1 : vim_options demo_state !! "more" = Some (VBool true)) by reflexivity.
  assert (H2 : vim_options (vim_command "redraw"
                  (set_vim_options (<["more" := VBool false]> (vim_options demo_state))
                     demo_state)).1
               = <["more" := VBool false]> (vim_options demo_state)) by reflexivity.
  split; [split; [exact H1|exact H2]|].
  exact (TemporaryVimOption_round_trip "more" (VBool false) (VBool true)
           (vim_command "redraw") demo_state H1 H2).
Defined.

(** X10: two nested [TemporaryVimOption] statements on the same option
    unwind in order: the inner body runs with the inner value, and after
    the outer statement the option holds the value from before both,
    whether the body returns or raises; the exit of the body is the exit
    of the outer statement. *)
Theorem TemporaryVimOption_nested {A} (opt : string) (outer inner old_value : pyvalue)
    (body : M A) (st : vim_state) :
  vim_options st !! opt = Some old_value ->
  let st2 := set_vim_options
               (<[opt := inner]> (<[opt := outer]> (vim_options st))) st in
  let out := with_ (TemporaryVimOption opt outer)
               (with_ (TemporaryVimOption opt inner) body) st in
  vim_options st2 !! opt = Some inner /\
  vim_options out.1 !! opt = Some old_value /\
  out.2 = propagated (propagated (body st2).2).
Proof.
  intros Hold st2 out. subst out.
  rewrite (with_TemporaryVimOption _ _ _ _ _ Hold).
  rewrite (with_TemporaryVimOption opt inner outer)
    by (simpl; apply lookup_insert_eq).
  simpl. fold st2.
  split; [apply lookup_insert_eq|].
  split; [apply lookup_insert_eq|reflexivity].
Qed.

Lemma TemporaryVimOption_nested_witness :
  vim_options demo_state !! "more" = Some (VBool true) /\
  vim_options (with_ (TemporaryVimOption "more" (VBool false))
                 (with_ (TemporaryVimOption "more" (VInt 3))
                    (raise (A := unit) KeyboardInterrupt)) demo_state).1 !! "more"
  = Some (VBool true) /\
  (with_ (TemporaryVimOption "more" (VBool false))
     (with_ (TemporaryVimOption "more" (VInt 3))
        (raise (A := unit) KeyboardInterrupt)) demo_state).2
  = Raised KeyboardInterrupt.
Proof.
  assert (H : vim_options demo_state !! "more" = Some (VBool true)) by reflexivity.
  split; [exact H|].
  destruct (TemporaryVimOption_nested "more" (VBool false) (VInt 3) (VBool true)
              (raise (A := unit) KeyboardInterrupt) demo_state H) as (_ & Hopt & Hexit).
  split; [exact Hopt|exact Hexit].
Defined.

(** ** Escape *)

Lemma append_cons (c : ascii) (a b : string) :
  String c a +:+ b = String c (a +:+ b).
Proof. reflexivity. Qed.

Lemma append_assoc (a b c : string) : (a +:+ b) +:+ c = a +:+ (b +:+ c).
Proof.
  induction a as [|x a IH]; [reflexivity|].
  rewrite !append_cons, IH. reflexivity.
Qed.

Lemma Escape_counts (s : string) :
  String.length (Escape s) = (String.length s + count_char quote s)%nat /\
  count_char quote (Escape s) = (2 * count_char quote s)%nat.
Proof.
  induction s as [|c s [IHl IHc]]; [split; reflexivity|].
  rewrite Escape_cons. simpl. destruct (Ascii.eqb c quote) eqn:E; simpl.
  - rewrite IHl, IHc. split; lia.
  - rewrite E, IHl, IHc. split; lia.
Qed.

Lemma contains_char_count (c : ascii) (s : string) :
  contains_char c s = false <-> count_char c s = 0%nat.
Proof.
  induction s as [|c' s IH]; simpl; [tauto|].
  destruct (Ascii.eqb c' c); simpl; [split; [discriminate|lia]|exact IH].
Qed.

(** The escaped text followed by a quote and by [rest], where [rest] does
    not begin with a quote, is read by the host as the text, [rest] being
    what follows the literal. *)
Lemma literal_text_Escape_rest (s rest : string) :
  String.prefix "'" rest = false ->
  literal_text (Escape s +:+ String quote rest) = Some (s, rest).
Proof.
  intros Hrest. induction s as [|c s IH].
  - change (Escape EmptyString +:+ String quote rest) with (String quote rest).
    simpl. destruct rest as [|c' rest']; [reflexivity|].
    rewrite prefix_one_char in Hrest. change "'"%char with quote in Hrest.
    rewrite Hrest. reflexivity.
  - rewrite Escape_cons. destruct (Ascii.eqb c quote) eqn:E.
    + apply Ascii.eqb_eq in E. subst c. rewrite !append_cons.
      simpl. simpl in IH. rewrite IH. reflexivity.
    + rewrite append_cons. simpl. rewrite E. simpl in IH. rewrite IH. reflexivity.
Qed.

(** X11: [Escape] lengthens a text by one character for each quote in it,
    and the escaped text holds twice as many quotes as the text. *)
Theorem Escape_length (msg : string) :
  String.length (Escape msg) = (String.length msg + count_char quote msg)%nat /\
  count_char quote (Escape msg) = (2 * count_char quote msg)%nat.
Proof.
  destruct (Escape_counts msg) as [Hlength Hquotes].
  split; [exact Hlength|exact Hquotes].
Qed.

(** X12: [Escape] returns its argument unchanged exactly when the argument
    holds no quote; so escaping an escaped text again changes it unless
    the text is free of quotes. *)
Theorem Escape_unchanged_iff (msg : string) :
  (Escape msg = msg <-> contains_char quote msg = false) /\
  (Escape (Escape msg) = Escape msg <-> contains_char quote msg = false).
Proof.
  assert (Hfix : forall s, Escape s = s <-> contains_char quote s = false).
  { intros s. rewrite contains_char_count. split.
    - intros Heq. pose proof (proj1 (Escape_counts s)) as Hl. rewrite Heq in Hl. lia.
    - intros Hc. induction s as [|c s IH]; [reflexivity|].
      rewrite Escape_cons. simpl in Hc. destruct (Ascii.eqb c quote); [discriminate|].
      rewrite IH by exact Hc. reflexivity. }
  split; [apply Hfix|].
  rewrite Hfix, !contains_char_count.
  pose proof (proj2 (Escape_counts msg)). lia.
Qed.

(** X13: escaping a concatenation is concatenating the escaped parts. *)
Theorem Escape_concatenation (a b : string) :
  Escape (a +:+ b) = Escape a +:+ Escape b.
Proof.
  induction a as [|c a IH]; [reflexivity|].
  rewrite append_cons, !Escape_cons, IH.
  destruct (Ascii.eqb c quote); reflexivity.
Qed.

(** X14: two texts with the same escaped form are the same text. *)
Theorem Escape_injective (a b : string) :
  Escape a = Escape b -> a = b.
Proof.
  intros Heq. pose proof (literal_text_Escape a) as Ha.
  rewrite Heq, literal_text_Escape in Ha. congruence.
Qed.

Lemma Escape_injective_witness :
  Escape "it's" = Escape ("it" +:+ "'s") /\ "it's" = "it" +:+ "'s".
Proof.
  assert (H : Escape "it's" = Escape ("it" +:+ "'s")) by reflexivity.
  split; [exact H|exact (Escape_injective "it's" ("it" +:+ "'s") H)].
Defined.

(** ** UserMessage *)

Lemma str_split_length (sep : ascii) (s : string) :
  length (str_split sep s) = S (count_char sep s).
Proof.
  induction s as [|c s IH]; [reflexivity|].
  simpl. destruct (Ascii.eqb c sep); simpl; [rewrite IH; reflexivity|].
  pose proof (str_split_nonempty sep s) as Hne.
  destruct (str_split sep s) as [|piece pieces]; [congruence|].
  simpl in *. exact IH.
Qed.

Lemma UserMessage_run (msg : string) (persist : bool) (st : vim_state) :
  UserMessage msg persist st
  = (set_vim_commands
       (vim_commands st ++ "redraw" :: map (echo_command persist) (str_split newline msg)) st,
     Normal tt).
Proof.
  unfold UserMessage, bind, vim_command at 1.
  rewrite (for_each_vim_command (echo_command persist)). simpl.
  rewrite <- app_assoc. reflexivity.
Qed.

Lemma substring_all (s : string) : String.substring 0 (String.length s) s = s.
Proof. induction s as [|c s IH]; [reflexivity|]. simpl. rewrite IH. reflexivity. Qed.

Lemma read_echo_echo_command (persist : bool) (line : string) :
  read_echo persist (echo_command persist line) = Some line.
Proof.
  unfold read_echo, echo_command.
  assert (Hlit : literal_string ("'" +:+ Escape line +:+ "'") = Some (line, EmptyString))
    by apply literal_text_Escape.
  destruct persist.
  - change (String.prefix ("echom" +:+ " ") ("echom" +:+ " '" +:+ Escape line +:+ "'"))
      with true.
    change (String.substring (String.length ("echom" +:+ " "))
              (String.length ("echom" +:+ " '" +:+ Escape line +:+ "'")
               - String.length ("echom" +:+ " "))
              ("echom" +:+ " '" +:+ Escape line +:+ "'"))
      with (String.substring 0 (String.length ("'" +:+ Escape line +:+ "'"))
              ("'" +:+ Escape line +:+ "'")).
    rewrite substring_all, Hlit. reflexivity.
  - change (String.prefix ("echo" +:+ " ") ("echo" +:+ " '" +:+ Escape line +:+ "'"))
      with true.
    change (String.substring (String.length ("echo" +:+ " "))
              (String.length ("echo" +:+ " '" +:+ Escape line +:+ "'")
               - String.length ("echo" +:+ " "))
              ("echo" +:+ " '" +:+ Escape line +:+ "'"))
      with (String.substring 0 (String.length ("'" +:+ Escape line +:+ "'"))
              ("'" +:+ Escape line +:+ "'")).
    rewrite substring_all, Hlit. reflexivity.
Qed.

Lemma read_echoes_echo_commands (persist : bool) (lines : list string) :
  read_echoes persist (map (echo_command persist) lines) = Some lines.
Proof.
  induction lines as [|line lines IH]; [reflexivity|].
  simpl. rewrite read_echo_echo_command, IH. reflexivity.
Qed.

(** X15: [UserMessage] issues two commands plus one for each newline of
    the message, never fewer than two: for the empty message, [redraw] and
    one command showing the empty text. *)
Theorem UserMessage_command_count (msg : string) (persist : bool) (st : vim_state) :
  length (vim_commands (UserMessage msg persist st).1)
  = (length (vim_commands st) + 2 + count_char newline msg)%nat /\
  vim_commands (UserMessage EmptyString persist st).1
  = (vim_commands st ++ ["redraw"; (if persist then "echom" else "echo") +:+ " '" +:+ "'"])%list.
Proof.
  rewrite !UserMessage_run. simpl. split; [|destruct persist; reflexivity].
  rewrite length_app. simpl. rewrite length_map, str_split_length. lia.
Qed.

(** X16: the message can be read back from what [UserMessage] issues: the
    commands after [redraw] are each the command word, a space and one
    literal-string, and the texts the host reads from them, joined by
    newlines, are the message. *)
Theorem UserMessage_read_back (msg : string) (persist : bool) (st : vim_state) :
  exists (issued lines : list string),
    vim_commands (UserMessage msg persist st).1
    = (vim_commands st ++ "redraw" :: issued)%list /\
    read_echoes persist issued = Some lines /\
    String.concat (String newline EmptyString) lines = msg.
Proof.
  exists (map (echo_command persist) (str_split newline msg)), (str_split newline msg).
  rewrite UserMessage_run. simpl. split; [reflexivity|].
  split; [apply read_echoes_echo_commands|apply str_split_concat].
Qed.

(** ** InputSave, AskForInput and SelectFromList *)

(** X17: a [with InputSave()] statement never raises.  When the body
    returns, the statement ends in the state the body left, with its
    value; when the body raises, whatever the exception, [inputrestore()]
    is the last expression evaluated and execution continues after the
    statement, the exception being dropped. *)
Theorem InputSave_swallows {A} (body : M A) (st : vim_state) :
  let inner := body (input_saved st) in
  let out := with_ InputSave body st in
  (forall e, out.2 <> Raised e) /\
  (forall a, inner.2 = Normal a -> out = (inner.1, Normal (Some a))) /\
  (forall e, inner.2 = Raised e ->
     out.2 = Normal None /\
     vim_evals out.1 = (vim_evals inner.1 ++ ["inputrestore()"])%list).
Proof.
  intros inner out. subst inner out. rewrite with_InputSave.
  destruct (body (input_saved st)) as [st2 [a|e]]; simpl.
  - split; [discriminate|]. split; [intros a' [= <-]; reflexivity|discriminate].
  - split; [discriminate|]. split; [discriminate|].
    intros e' _. split; [reflexivity|].
    unfold input_restored, vim_eval. simpl. destruct (vim_input_saves st2); reflexivity.
Qed.

(** X18: with a body that leaves the count of saved typeaheads as it found
    it, [with InputSave()] ends with that count as before the statement
    when the body raised, and one higher when the body returned. *)
Theorem InputSave_balance {A} (body : M A) (st : vim_state) :
  vim_input_saves (body (input_saved st)).1 = vim_input_saves (input_saved st) ->
  vim_input_saves (with_ InputSave body st).1
  = match (body (input_saved st)).2 with
    | Normal _ => S (vim_input_saves st)
    | Raised _ => vim_input_saves st
    end.
Proof.
  intros Hbody. rewrite with_InputSave.
  destruct (body (input_saved st)) as [st2 [a|e]]; simpl in *.
  - exact Hbody.
  - unfold input_restored, vim_eval. simpl. rewrite Hbody. reflexivity.
Qed.

Lemma InputSave_balance_witness :
  (vim_input_saves (vim_command "redraw" (input_saved demo_state)).1
   = vim_input_saves (input_saved demo_state) /\
   vim_input_saves (raise (A := unit) (VimError "E492") (input_saved demo_state)).1
   = vim_input_saves (input_saved demo_state)) /\
  vim_input_saves (with_ InputSave (vim_command "redraw") demo_state).1 = 1%nat /\
  vim_input_saves (with_ InputSave (raise (A := unit) (VimError "E492")) demo_state).1 = 0%nat.
Proof.
  assert (H1 : vim_input_saves (vim_command "redraw" (input_saved demo_state)).1
               = vim_input_saves (input_saved demo_state)) by reflexivity.
  assert (H2 : vim_input_saves (raise (A := unit) (VimError "E492")
                                  (input_saved demo_state)).1
               = vim_input_saves (input_saved demo_state)) by reflexivity.
  split; [split; [exact H1|exact H2]|].
  split.
  - exact (InputSave_balance (vim_command "redraw") demo_state H1).
  - exact (InputSave_balance (raise (A := unit) (VimError "E492")) demo_state H2).
Defined.

(** X19: [AskForInput] never raises: it returns what the user entered,
    the empty string included, and [None] when the user interrupts the
    prompt, the host reports an error or gives no reply. *)
Theorem AskForInput_returns (prompt : string) (st : vim_state) :
  (AskForInput prompt st).2
  = match vim_replies st with
    | Answer s :: _ => Normal (Some s)
    | _ => Normal None
    end.
Proof.
  rewrite AskForInput_run. simpl.
  destruct (vim_replies st) as [|[s| |msg] rest]; reflexivity.
Qed.

(** X20: whatever characters the prompt holds, the expression
    [AskForInput] evaluates after [inputsave()] is [input( ] followed by
    one literal-string that the host reads as the prompt, followed by
    [ )]. *)
Theorem AskForInput_prompt_intact (prompt : string) (st : vim_state) :
  exists literal : string,
    vim_evals (AskForInput prompt st).1 !! S (length (vim_evals st))
    = Some ("input( " +:+ literal) /\
    literal_string literal = Some (prompt, " )").
Proof.
  exists ("'" +:+ Escape prompt +:+ "' )"). split.
  - rewrite AskForInput_run.
    assert (Hlook : forall (l : list string) (a b : string) (tl : list string),
               (l ++ a :: b :: tl)%list !! S (length l) = Some b).
    { intros l a b tl. induction l as [|x l IH]; [reflexivity|exact IH]. }
    destruct (vim_replies st) as [|[s| |msg] rest]; simpl;
      unfold input_restored, vim_eval; simpl;
      try destruct (vim_input_saves st);
      rewrite <- ?app_assoc; simpl; apply Hlook.
  - apply (literal_text_Escape_rest prompt " )"). reflexivity.
Qed.

(** X21: whatever the user or the host does at the prompt (a number in or
    out of range, text that is no number, an interrupt, an error, no
    reply), [SelectFromList] does not raise, and what it returns is
    [None] or one of the options. *)
Theorem SelectFromList_returns_option (json_dumps : list string -> string)
    (prompt : string) (options : list string) (st : vim_state) :
  exists r : option string,
    (SelectFromList json_dumps prompt options st).2 = Normal r /\
    forall v, r = Some v -> v ∈ options.
Proof.
  rewrite SelectFromList_run. cbv zeta.
  assert (Hnone : forall st' : vim_state,
             exists r : option string,
               (st', Normal (A := option string) None).2 = Normal r /\
               forall v, r = Some v -> v ∈ options).
  { intros st'. exists None. split; [reflexivity|discriminate]. }
  destruct (vim_replies st) as [|[s| |msg] rest]; try apply Hnone.
  destruct (NilZero.int_of_string s) as [d|]; [|apply Hnone].
  destruct ((Z.of_int d - 1 <? 0) || (Z.of_nat (length options) <=? Z.of_int d - 1));
    [apply Hnone|].
  destruct (options !! Z.to_nat (Z.of_int d - 1)) as [v|] eqn:Hv; [|apply Hnone].
  exists (Some v). split; [reflexivity|].
  intros v' [= <-]. apply (list_elem_of_lookup_2 _ _ _ Hv).
Qed.

(** X22: the number shown in front of an option is the number that selects
    it: the entry displayed for the option at index [k] reads [k + 1],
    a colon, a space and the option, and entering [k + 1] returns that
    option. *)
Theorem SelectFromList_shown_number_selects (json_dumps : list string -> string)
    (prompt : string) (options : list string) (k : nat) (v : string)
    (st : vim_state) (rest : list reply) :
  options !! k = Some v ->
  vim_replies st = Answer (decimal (Z.of_nat k + 1)) :: rest ->
  ([prompt] ++ numbered options)%list !! S k
  = Some (decimal (Z.of_nat k + 1) +:+ ": " +:+ v) /\
  (SelectFromList json_dumps prompt options st).2 = Normal (Some v).
Proof.
  intros Hk Hr. split.
  - simpl. unfold numbered. rewrite list_lookup_imap, Hk. reflexivity.
  - rewrite (SelectFromList_number _ _ _ _ rest st Hr). simpl.
    pose proof (lookup_lt_Some _ _ _ Hk) as Hlt.
    replace (Z.of_nat k + 1 <? 1) with false by (symmetry; apply Z.ltb_ge; lia).
    replace (Z.of_nat (length options) <? Z.of_nat k + 1) with false
      by (symmetry; apply Z.ltb_ge; lia).
    simpl. replace (Z.to_nat (Z.of_nat k + 1 - 1)) with k by lia.
    rewrite Hk. reflexivity.
Qed.

Lemma SelectFromList_shown_number_selects_witness :
  (["A"; "B"; "C"] !! 2%nat = Some "C" /\
   vim_replies (demo_state_replying [Answer "3"]) = [Answer (decimal 3)]) /\
  (["Pick"] ++ numbered ["A"; "B"; "C"])%list !! 3%nat = Some "3: C" /\
  (SelectFromList json_dumps_ascii "Pick" ["A"; "B"; "C"]
     (demo_state_replying [Answer "3"])).2 = Normal (Some "C").
Proof.
  assert (H1 : ["A"; "B"; "C"] !! 2%nat = Some "C") by reflexivity.
  assert (H2 : vim_replies (demo_state_replying [Answer "3"])
               = Answer (decimal (Z.of_nat 2 + 1)) :: []) by reflexivity.
  split; [split; [exact H1|exact H2]|].
  exact (SelectFromList_shown_number_selects json_dumps_ascii "Pick" ["A"; "B"; "C"]
           2 "C" (demo_state_replying [Answer "3"]) [] H1 H2).
Defined.

(** ** SetUpLogging, further *)

(** X23: [SetUpLogging] sets the level of the logger to [DEBUG] whatever
    it was, keeps the handlers the logger had, in their order, at the
    front of its handler list, adds at most one handler, and afterwards
    the logger holds the shared handler and exactly the handlers it held
    before; a handler attached several times before the call stays
    attached as often. *)
Theorem SetUpLogging_keeps_handlers (_log_handler : nat) (lg : logger) :
  let lg' := SetUpLogging _log_handler lg in
  level lg' = DEBUG /\
  handlers lg `prefix_of` handlers lg' /\
  (length (handlers lg') <= S (length (handlers lg)))%nat /\
  (forall h : nat, h ∈ handlers lg' <-> h = _log_handler \/ h ∈ handlers lg) /\
  times_attached _log_handler lg' = Nat.max 1 (times_attached _log_handler lg) /\
  (forall h : nat, h <> _log_handler -> times_attached h lg' = times_attached h lg).
Proof.
  intros lg'. subst lg'.
  split; [apply SetUpLogging_level|].
  destruct (decide (_log_handler ∈ handlers lg)) as [Hin|Hin].
  - pose proof (SetUpLogging_handlers_present _ _ Hin) as Heq.
    unfold times_attached. rewrite Heq.
    split; [reflexivity|]. split; [lia|].
    split; [intros h; split; [tauto|intros [->|H]; assumption]|].
    split; [|reflexivity].
    destruct (filter (eq _log_handler) (handlers lg)) eqn:E; [|simpl; lia].
    exfalso. assert (Hf : _log_handler ∈ filter (eq _log_handler) (handlers lg))
      by (apply list_elem_of_filter; split; [reflexivity|exact Hin]).
    rewrite E in Hf. inversion Hf.
  - pose proof (SetUpLogging_handlers_absent _ _ Hin) as Heq.
    unfold times_attached. rewrite Heq.
    split; [apply prefix_app_r; reflexivity|].
    split; [rewrite length_app; simpl; lia|].
    split.
    + intros h. rewrite elem_of_app, list_elem_of_singleton. tauto.
    + rewrite !list.filter_app, (not_elem_of_filter_eq _ _ Hin).
      split; [rewrite filter_cons_True by reflexivity; reflexivity|].
      intros h Hne. rewrite list.filter_app, filter_cons_False by congruence.
      rewrite length_app. simpl. lia.
Qed.

(** ** PathToConfigFile on a POSIX host *)

Lemma ancestor_beyond_root (path_dirname : string -> string) (n : nat) :
  forall (p : string) (k : nat),
    path_dirname (ancestor path_dirname n p) = ancestor path_dirname n p ->
    (n <= k)%nat ->
    ancestor path_dirname k p = ancestor path_dirname n p.
Proof.
  induction n as [|n IH]; intros p k Hroot Hle.
  - apply ancestor_root. exact Hroot.
  - destruct k as [|k]; [lia|]. simpl. apply IH; [exact Hroot|lia].
Qed.

Module PosixLookup.
Import Posix.

(** X24: with [posixpath.dirname] and [posixpath.join], the lookup returns
    for every working directory, file system and file name, within one
    iteration more than the working directory has characters.  A returned
    path exists and is the joined path of a directory above the working
    directory; [None] is returned only when the joined path exists in no
    directory above the working directory, at any height. *)
Theorem PathToConfigFile_posix_returns (getcwd : string) (path_exists : string -> bool)
    (file_name : string) :
  exists r : option string,
    (forall fuel, (String.length getcwd < fuel)%nat ->
       PathToConfigFile getcwd join path_exists dirname fuel file_name = Some r) /\
    match r with
    | Some c =>
        path_exists c = true /\
        exists k, c = join (ancestor dirname k getcwd) file_name
    | None =>
        forall k, path_exists (join (ancestor dirname k getcwd) file_name) = false
    end.
Proof.
  destruct (PosixFacts.dirname_reaches_root (String.length getcwd) getcwd)
    as (n & Hn & Hroot); [lia|].
  destruct (walk_terminates join path_exists dirname file_name n getcwd (S n) Hroot)
    as [r Hr]; [lia|].
  exists r. split.
  - intros fuel Hfuel. apply (walk_more_fuel _ _ _ _ (S n)); [exact Hr|lia].
  - destruct (walk_sound _ _ _ _ _ _ _ Hr) as (k0 & Hk0 & Hbefore & Hat).
    destruct r as [c|].
    + destruct Hat as [-> Hex]. split; [exact Hex|]. exists k0. reflexivity.
    + destruct Hat as [Hhere Hroot0]. intros k.
      destruct (decide (k < k0)%nat) as [Hlt|Hge].
      * apply (Hbefore k Hlt).
      * rewrite (ancestor_beyond_root dirname k0 getcwd k Hroot0) by lia. exact Hhere.
Qed.

(** X25: for a file name that begins with a slash, [posixpath.join] drops
    the directory, so the lookup does not depend on the working
    directory: it returns the file name itself when that path exists, and
    [None] when it does not. *)
Theorem PathToConfigFile_absolute_name (getcwd : string) (path_exists : string -> bool)
    (file_name : string) (fuel : nat) :
  String.prefix "/" file_name = true ->
  (String.length getcwd < fuel)%nat ->
  PathToConfigFile getcwd join path_exists dirname fuel file_name
  = Some (if path_exists file_name then Some file_name else None).
Proof.
  intros Habs Hfuel.
  assert (Hjoin : forall p, join p file_name = file_name)
    by (intros p; unfold join; rewrite Habs; reflexivity).
  destruct (path_exists file_name) eqn:Hex.
  - unfold PathToConfigFile.
    rewrite (walk_found join path_exists dirname file_name 0 getcwd fuel).
    + rewrite Hjoin. reflexivity.
    + intros j Hj. lia.
    + rewrite Hjoin. exact Hex.
    + lia.
  - destruct (PosixFacts.dirname_reaches_root (String.length getcwd) getcwd)
      as (n & Hn & Hroot); [lia|].
    apply (walk_not_found join path_exists dirname file_name n).
    + exact Hroot.
    + intros j Hj. rewrite Hjoin. exact Hex.
    + lia.
Qed.

Lemma PathToConfigFile_absolute_name_witness :
  (String.prefix "/" "/etc/vimspector.json" = true /\
   (String.length "/a/b/c" < 7)%nat) /\
  PathToConfigFile "/a/b/c" join (String.eqb "/etc/vimspector.json") dirname 7
    "/etc/vimspector.json" = Some (Some "/etc/vimspector.json") /\
  PathToConfigFile "/a/b/c" join demo_exists dirname 7
    "/etc/vimspector.json" = Some None.
Proof.
  assert (H1 : String.prefix "/" "/etc/vimspector.json" = true) by reflexivity.
  assert (H2 : (String.length "/a/b/c" < 7)%nat) by (simpl; lia).
  split; [split; [exact H1|exact H2]|].
  split.
  - exact (PathToConfigFile_absolute_name "/a/b/c" (String.eqb "/etc/vimspector.json")
             "/etc/vimspector.json" 7 H1 H2).
  - exact (PathToConfigFile_absolute_name "/a/b/c" demo_exists
             "/etc/vimspector.json" 7 H1 H2).
Defined.

End PosixLookup.
